(** * knowit: property handlers and the MediaInfo provider

    A shallow embedding of
    - [knowit/properties/basic.py]           ([Basic.handle]),
    - [knowit/properties/audio/channels.py]  ([AudioChannels.handle]),
    - [knowit/providers/mediainfo.py]        ([MediaInfoProvider.accepts],
      [MediaInfoProvider.version], [MediaInfoProvider.describe]).

    Python values are an inductive type, exceptions are a sum type, and the
    request-scoped context is threaded explicitly through a small
    state-and-exception monad. *)

From Stdlib Require Import ZArith List String Ascii Bool Lia.
From Stdlib Require Import DecimalString DecimalPos DecimalZ.
From Stdlib Require Import PrimFloat FloatOps SpecFloat.
Import ListNotations.

Set Warnings "-register-all,-notation-for-abbreviation".

Local Open Scope Z_scope.
Local Open Scope string_scope.
Local Open Scope list_scope.

(** ** Python values, exceptions and the builtins the sources call *)

Module Py.

(** The values [json.loads] produces, which are also the raw values a
    handler receives.  A [dict] is an association list in insertion order;
    a key is looked up at its first binding.  Strings are sequences of
    ASCII characters. *)
Inductive value : Type :=
| VNone
| VBool (b : bool)
| VInt (z : Z)
| VFloat (f : float)
| VStr (s : string)
| VList (l : list value)
| VDict (kv : list (string * value)).

Inductive exn : Type :=
| ValueError
| TypeError
| AttributeError
| OverflowError
| MalformedFileError
| OtherError (name : string).

Inductive outcome (A : Type) : Type :=
| Return (a : A)
| Raise (e : exn).
Arguments Return {A} a.
Arguments Raise {A} e.

(** [bool(v)] / the truth value used by [if v:], [not v] and [v and w]. *)
Definition truthy (v : value) : bool :=
  match v with
  | VNone => false
  | VBool b => b
  | VInt z => negb (z =? 0)%Z
  | VFloat f => negb (PrimFloat.eqb f PrimFloat.zero)
  | VStr s => negb (String.eqb s "")
  | VList l => match l with [] => false | _ :: _ => true end
  | VDict kv => match kv with [] => false | _ :: _ => true end
  end.

(** [v == s] for a string literal [s]: only a [str] equals a [str]. *)
Definition eq_str (v : value) (s : string) : bool :=
  match v with
  | VStr t => String.eqb t s
  | _ => false
  end.

(** *** Dictionaries *)

Fixpoint dict_get (kv : list (string * value)) (key : string) : option value :=
  match kv with
  | [] => None
  | (k, v) :: rest => if String.eqb k key then Some v else dict_get rest key
  end.

(** [d[key] = v]: an existing key keeps its position, a new key goes last. *)
Fixpoint dict_set (kv : list (string * value)) (key : string) (v : value)
  : list (string * value) :=
  match kv with
  | [] => [(key, v)]
  | (k, w) :: rest =>
      if String.eqb k key then (k, v) :: rest else (k, w) :: dict_set rest key v
  end.

(** [obj.get(key, default)]; only a [dict] has the attribute [get]. *)
Definition get (obj : value) (key : string) (default : value) : outcome value :=
  match obj with
  | VDict kv =>
      Return (match dict_get kv key with Some v => v | None => default end)
  | _ => Raise AttributeError
  end.

(** [obj[key] = v] with a string key: every non-dict value here refuses it
    with a [TypeError]. *)
Definition setitem (obj : value) (key : string) (v : value) : outcome value :=
  match obj with
  | VDict kv => Return (VDict (dict_set kv key v))
  | _ => Raise TypeError
  end.

(** The elements [for x in obj] visits: list items, dict keys, the
    characters of a string; the other values are not iterable. *)
Definition iter (obj : value) : outcome (list value) :=
  match obj with
  | VList l => Return l
  | VDict kv => Return (map (fun p => VStr (fst p)) kv)
  | VStr s => Return (map (fun c => VStr (String c "")) (list_ascii_of_string s))
  | _ => Raise TypeError
  end.

(** *** Strings *)

Definition lower_ascii (c : ascii) : ascii :=
  let n := nat_of_ascii c in
  if (65 <=? n)%nat && (n <=? 90)%nat then ascii_of_nat (n + 32) else c.

(** [s.lower()] *)
Fixpoint lower (s : string) : string :=
  match s with
  | EmptyString => EmptyString
  | String c rest => String (lower_ascii c) (lower rest)
  end.

(** [s.endswith(suffix)] *)
Definition endswith1 (s suffix : string) : bool :=
  let n := String.length s in
  let m := String.length suffix in
  (m <=? n)%nat && String.eqb (substring (n - m) m s) suffix.

(** [s.endswith(suffixes)] for a tuple of suffixes *)
Definition endswith (s : string) (suffixes : list string) : bool :=
  existsb (endswith1 s) suffixes.

(** [sep.join(parts)] *)
Fixpoint join (sep : string) (parts : list string) : string :=
  match parts with
  | [] => ""
  | [p] => p
  | p :: rest => p ++ sep ++ join sep rest
  end.

(** [sys.get_int_max_str_digits()], at its default: [int] refuses a string
    with more digits, and [str] a number with more digits, with
    [ValueError]. *)
Definition max_str_digits : nat := 4300.

(** [str(z)] for an [int] of at most [max_str_digits] digits. *)
Definition str_of_int (z : Z) : string :=
  NilZero.string_of_int (Z.to_int z).

(** *** [int(s)] for a string, base 10

    Leading and trailing whitespace is skipped, one sign is allowed, and
    the digits may be grouped by single underscores.  [None] stands for
    [ValueError], the only exception [int] raises on a string; it is also
    raised when there are more than [max_str_digits] digits, leading zeros
    counted. *)

Definition is_space (c : ascii) : bool :=
  let n := nat_of_ascii c in
  ((9 <=? n)%nat && (n <=? 13)%nat) || (n =? 32)%nat.

Definition digit_value (c : ascii) : option Z :=
  let n := nat_of_ascii c in
  if (48 <=? n)%nat && (n <=? 57)%nat then Some (Z.of_nat (n - 48)) else None.

Fixpoint skip_spaces (l : list ascii) : list ascii :=
  match l with
  | c :: rest => if is_space c then skip_spaces rest else l
  | [] => []
  end.

(** Scans digits and underscores; returns the number read, how many digits
    it had, and the unread rest.  Two underscores in a row or a trailing
    underscore are refused. *)
Fixpoint scan_digits (prev_underscore : bool) (acc : Z) (count : nat)
         (l : list ascii) : option (Z * nat * list ascii) :=
  match l with
  | c :: rest =>
      match digit_value c with
      | Some d => scan_digits false (10 * acc + d) (S count) rest
      | None =>
          if Ascii.eqb c "_"%char then
            if prev_underscore then None else scan_digits true acc count rest
          else if prev_underscore then None else Some (acc, count, l)
      end
  | [] => if prev_underscore then None else Some (acc, count, [])
  end.

Definition int_of_str (s : string) : option Z :=
  let l := skip_spaces (list_ascii_of_string s) in
  let '(negative, l) :=
    match l with
    | c :: rest =>
        if Ascii.eqb c "+"%char then (false, rest)
        else if Ascii.eqb c "-"%char then (true, rest)
        else (false, l)
    | [] => (false, l)
    end in
  match l with
  | c :: _ =>
      if Ascii.eqb c "_"%char then None
      else
        match scan_digits false 0 0 l with
        | Some (n, S k, rest) =>
            if (max_str_digits <? S k)%nat then None
            else
              match skip_spaces rest with
              | [] => Some (if negative then - n else n)
              | _ :: _ => None
              end
        | _ => None
        end
  | [] => None
  end.

(** *** [int(x)] and [float(z)] between numbers *)

(** [int(f)]: truncation towards zero; [nan] and the infinities raise. *)
Definition int_of_float (f : float) : outcome Z :=
  match Prim2SF f with
  | S754_zero _ => Return 0
  | S754_infinity _ => Raise OverflowError
  | S754_nan => Raise ValueError
  | S754_finite s m e =>
      let a := match e with
               | Zneg p => Z.shiftr (Zpos m) (Zpos p)
               | _ => Z.shiftl (Zpos m) e
               end in
      Return (if s then - a else a)
  end.

(** [float(z)]: the nearest double, ties to even; too large raises. *)
Definition float_of_int (z : Z) : outcome float :=
  match binary_normalize prec emax z 0 false with
  | S754_infinity _ => Raise OverflowError
  | sf => Return (SF2Prim sf)
  end.

(** *** Types as first-class values

    [Basic] stores a type and uses it twice: in [isinstance(value, T)] and
    in the call [T(value)]. *)
Record pytype : Type := {
  isinstance : value -> bool;
  construct : value -> outcome value
}.

Section Builtins.

(** [float(s)] for a string ([None]: [ValueError]) and [str(v)] for any
    value are left to the interpreter. *)
Variable float_of_str : string -> option float.
Variable str_of_value : value -> string.

(** [int]; [bool] is a subclass of [int]. *)
Definition py_int : pytype := {|
  isinstance v := match v with VInt _ | VBool _ => true | _ => false end;
  construct v :=
    match v with
    | VInt z => Return (VInt z)
    | VBool b => Return (VInt (Z.b2z b))
    | VFloat f =>
        match int_of_float f with
        | Return z => Return (VInt z)
        | Raise e => Raise e
        end
    | VStr s =>
        match int_of_str s with
        | Some z => Return (VInt z)
        | None => Raise ValueError
        end
    | VNone | VList _ | VDict _ => Raise TypeError
    end
|}.

Definition py_float : pytype := {|
  isinstance v := match v with VFloat _ => true | _ => false end;
  construct v :=
    match v with
    | VFloat f => Return (VFloat f)
    | VInt z =>
        match float_of_int z with
        | Return f => Return (VFloat f)
        | Raise e => Raise e
        end
    | VBool b =>
        match float_of_int (Z.b2z b) with
        | Return f => Return (VFloat f)
        | Raise e => Raise e
        end
    | VStr s =>
        match float_of_str s with
        | Some f => Return (VFloat f)
        | None => Raise ValueError
        end
    | VNone | VList _ | VDict _ => Raise TypeError
    end
|}.

Definition py_bool : pytype := {|
  isinstance v := match v with VBool _ => true | _ => false end;
  construct v := Return (VBool (truthy v))
|}.

Definition py_str : pytype := {|
  isinstance v := match v with VStr _ => true | _ => false end;
  construct v := Return (VStr (str_of_value v))
|}.

(** The primitive types a [Basic] property is declared with. *)
Inductive primitive : Type := Int | Float | Bool | Str.

Definition type_of (p : primitive) : pytype :=
  match p with
  | Int => py_int
  | Float => py_float
  | Bool => py_bool
  | Str => py_str
  end.

End Builtins.

End Py.
Import Py.

(** ** The request-scoped context *)

Module Context.

(** A recorded warning: the name of the property that reported, and the raw
    value it could not handle. *)
Record warning : Type := {
  reporter : string;
  reported : value
}.

(** Modelled from the spec: the context of [knowit/api.py], which is not
    part of the sources at hand.  It is the mutable bag shared by every
    handler invocation for one file; the parts the sources at hand touch
    are the accumulated warnings and the debug-dump producer, a closure
    over the raw probe output that [describe] stores under ['debug_data']. *)
Record context : Type := {
  warnings : list warning;
  debug_data : option value
}.

Definition empty : context := {| warnings := []; debug_data := None |}.

(** A computation that reads and updates the context and either returns or
    raises; what it did to the context before raising stays done. *)
Definition M (A : Type) : Type := context -> outcome A * context.

Definition ret {A : Type} (a : A) : M A := fun ctx => (Return a, ctx).

Definition raise {A : Type} (e : exn) : M A := fun ctx => (Raise e, ctx).

Definition bind {A B : Type} (m : M A) (k : A -> M B) : M B :=
  fun ctx =>
    match m ctx with
    | (Return a, ctx') => k a ctx'
    | (Raise e, ctx') => (Raise e, ctx')
    end.

(** A call that cannot touch the context. *)
Definition lift {A : Type} (o : outcome A) : M A := fun ctx => (o, ctx).

(** [context['debug_data'] = debug_data] *)
Definition set_debug_data (data : value) : M unit :=
  fun ctx => (Return tt, {| warnings := warnings ctx; debug_data := Some data |}).

(** The context after one more warning was recorded. *)
Definition record_warning (ctx : context) (w : warning) : context :=
  {| warnings := warnings ctx ++ [w]; debug_data := debug_data ctx |}.

End Context.
Import Context.

Declare Scope py_scope.
Delimit Scope py_scope with py.
Notation "x <- m ;; k" := (bind m (fun x => k))
  (at level 61, m at next level, right associativity) : py_scope.
Notation "m ;; k" := (bind m (fun _ => k))
  (at level 61, right associativity) : py_scope.
Local Open Scope py_scope.

(** ** Properties *)

Module Property.

(** The part of [knowit.property.Property] the handlers below use: the raw
    field name the property reads, and its description. *)
Record t : Type := {
  name : string;
  description : string
}.

(** Modelled from the spec: [Property.report] of [knowit/property.py], which
    is not part of the sources at hand.  "[report(value, context)] records a
    warning in [context] and yields no output value for that field." *)
Definition report (self : t) (v : value) : M value :=
  fun ctx =>
    (Return VNone, record_warning ctx {| reporter := name self; reported := v |}).

(** Modelled from the spec: [Property.handle] of [knowit/property.py], the
    handler of a property declared without a subclass, such as
    [Property('Title')]: there is nothing to coerce, the raw value is the
    output. *)
Definition handle (self : t) (v : value) : M value := ret v.

End Property.

(** *** [Basic] *)

Module Basic.

Record t : Type := {
  property : Property.t;
  data_type : pytype;
  allow_fallback : bool
}.

(** [__init__(self, name, data_type, allow_fallback=False, **kwargs)] *)
Definition init (name : string) (data_type : pytype) (allow_fallback : option bool)
           (description : string) : t := {|
  property := {| Property.name := name; Property.description := description |};
  data_type := data_type;
  allow_fallback := match allow_fallback with Some b => b | None => false end
|}.

(** [handle(self, value, context)].  A function that falls off its end, or
    whose [except] block does, returns [None]; an exception other than
    [ValueError] is not caught. *)
Definition handle (self : t) (v : value) : M value :=
  if isinstance (data_type self) v then ret v
  else
    match construct (data_type self) v with
    | Return x => ret x
    | Raise ValueError =>
        if negb (allow_fallback self) then
          (Property.report (property self) v ;; ret VNone)
        else ret VNone
    | Raise e => raise e
    end.

End Basic.

(** *** [AudioChannels] *)

Module AudioChannels.

(** The class attribute [ignored]. *)
Definition ignored : list string := ["object based"].

(** [v in self.ignored] *)
Definition is_ignored (v : string) : bool := existsb (String.eqb v) ignored.

(** [handle(self, value, context)].  Only a [str] has [lower]. *)
Definition handle (self : Property.t) (v : value) : M value :=
  if isinstance (py_int) v then ret v
  else
    match v with
    | VStr s =>
        let v' := lower s in
        if negb (is_ignored v') then
          match int_of_str v' with
          | Some z => ret (VInt z)
          | None => (Property.report self v ;; ret VNone)
          end
        else ret VNone
    | _ => raise AttributeError
    end.

End AudioChannels.

(** ** The MediaInfo provider *)

Module MediaInfoExecutor.

(** [__init__(self, location, version)]; [version] is the tuple of integers
    [_get_version] builds. *)
Record t : Type := {
  location : string;
  version : list Z
}.

(** *** [version_re = re.compile(r'\bv(?P<version>\d+(?:\.\d+)+)\b')]

    The pattern is matched the way a backtracking matcher does: every
    piece yields the ways it can match, the preferred way first, and the
    first way on which the rest of the pattern matches is taken. *)

(** [\w], among the ASCII characters *)
Definition is_word (c : ascii) : bool :=
  let n := nat_of_ascii c in
  ((48 <=? n)%nat && (n <=? 57)%nat) || ((65 <=? n)%nat && (n <=? 90)%nat)
  || ((97 <=? n)%nat && (n <=? 122)%nat) || (n =? 95)%nat.

(** [\d], among the ASCII characters *)
Definition is_digit (c : ascii) : bool :=
  let n := nat_of_ascii c in (48 <=? n)%nat && (n <=? 57)%nat.

Definition word_before (prev : option ascii) : bool :=
  match prev with Some c => is_word c | None => false end.

Definition word_after (rest : list ascii) : bool :=
  match rest with c :: _ => is_word c | [] => false end.

(** [\b] between the character before the position and the rest. *)
Definition boundary (prev : option ascii) (rest : list ascii) : bool :=
  xorb (word_before prev) (word_after rest).

(** [\d+], greedy: the matched digits and the rest, the longest match
    first. *)
Fixpoint digits_plus (l : list ascii) : list (list ascii * list ascii) :=
  match l with
  | c :: r =>
      if is_digit c then
        map (fun m => (c :: fst m, snd m)) (digits_plus r) ++ [([c], r)]
      else []
  | [] => []
  end.

(** [\.\d+] *)
Definition dot_digits (l : list ascii) : list (list ascii * list ascii) :=
  match l with
  | c :: r =>
      if Ascii.eqb c "."%char then map (fun m => (c :: fst m, snd m)) (digits_plus r)
      else []
  | [] => []
  end.

(** [(?:\.\d+)+], greedy: after one group, more groups are tried before
    stopping.  A group takes at least two characters, so the length of the
    input bounds the number of groups. *)
Fixpoint groups_plus (fuel : nat) (l : list ascii) : list (list ascii * list ascii) :=
  match fuel with
  | O => []
  | S fuel' =>
      flat_map (fun g =>
                  map (fun m => ((fst g ++ fst m)%list, snd m)) (groups_plus fuel' (snd g))
                  ++ [g])
               (dot_digits l)
  end.

(** [\d+(?:\.\d+)+]: the text of the group [version] and the rest. *)
Definition version_text (l : list ascii) : list (list ascii * list ascii) :=
  flat_map (fun d =>
              map (fun m => ((fst d ++ fst m)%list, snd m))
                  (groups_plus (List.length (snd d)) (snd d)))
           (digits_plus l).

(** The whole pattern at one position; [prev] is the character before it. *)
Definition match_here (prev : option ascii) (l : list ascii) : option (list ascii) :=
  if boundary prev l then
    match l with
    | c :: r =>
        if Ascii.eqb c "v"%char then
          match find (fun m => boundary (Some (last (fst m) c)) (snd m)) (version_text r) with
          | Some m => Some (fst m)
          | None => None
          end
        else None
    | [] => None
    end
  else None.

(** [version_re.search]: the first position, from the left, where the
    pattern matches. *)
Fixpoint search (prev : option ascii) (l : list ascii) : option (list ascii) :=
  match match_here prev l with
  | Some text => Some text
  | None =>
      match l with
      | c :: r => search (Some c) r
      | [] => None
      end
  end.

(** [text.split(sep)] for a separator of one character. *)
Fixpoint split (sep : ascii) (l : list ascii) : list (list ascii) :=
  match l with
  | [] => [[]]
  | c :: r =>
      if Ascii.eqb c sep then [] :: split sep r
      else
        match split sep r with
        | piece :: pieces => (c :: piece) :: pieces
        | [] => [[c]]
        end
  end.

(** [[int(v) for v in pieces]]; [None] when some [int(v)] raises. *)
Fixpoint ints (pieces : list (list ascii)) : option (list Z) :=
  match pieces with
  | [] => Some []
  | piece :: rest =>
      match int_of_str (string_of_list_ascii piece), ints rest with
      | Some z, Some zs => Some (z :: zs)
      | _, _ => None
      end
  end.

(** [_get_version(cls, output)]: the tuple of the version's numbers, or
    [None] when the pattern is not found. *)
Definition _get_version (output : string) : outcome (option (list Z)) :=
  match search None (list_ascii_of_string output) with
  | Some text =>
      match ints (split "."%char text) with
      | Some version => Return (Some version)
      | None => Raise ValueError
      end
  | None => Return None
  end.

(** The class attribute [locations]. *)
Definition locations : list (string * list string) :=
  [("unix", ["/usr/local/mediainfo/lib"; "/usr/local/mediainfo/bin"; "__PATH__"]);
   ("windows", ["__PATH__"]);
   ("macos", ["__PATH__"])].

Section Lookup.

(** The pieces of the lookup that reach outside the program: the operating
    system family and the two [create] class methods, which try the
    candidate libraries and executables; they stand for calls of [create]
    that return, an exception of [create] would leave the lookup as it
    is. *)
Variable detect_os : string.
Variable ctypes_create : string -> option string -> option t.
Variable cli_create : string -> option string -> option t.

(** [get_executor_instance(cls, suggested_path=None)]: the first executor
    class whose [create] yields an executor wins; falling off the loop
    returns [None]. *)
Definition get_executor_instance (suggested_path : option string) : option t :=
  let os_family := detect_os in
  let fix try_each (classes : list (string -> option string -> option t)) :=
    match classes with
    | [] => None
    | create :: rest =>
        match create os_family suggested_path with
        | Some executor => Some executor
        | None => try_each rest
        end
    end in
  try_each [ctypes_create; cli_create].

End Lookup.

End MediaInfoExecutor.

Module MediaInfoCliExecutor.

(** The class attribute [names]. *)
Definition names : list (string * list string) :=
  [("unix", ["mediainfo"]); ("windows", ["MediaInfo.exe"]); ("macos", ["mediainfo"])].

(** How [check_output([candidate, '--version']).decode()] ends: with the
    decoded output of a command that exited with zero; with
    [CalledProcessError] from a command that did not, whose output
    [e.output.decode()] decodes in the handler, or fails to decode with an
    exception; with [OSError] when the command could not be started; or
    with another exception, a failed decoding of the output included. *)
Inductive check_output_result : Type :=
| Completed (output : string)
| CalledProcessError (output : string)
| CalledProcessErrorUndecodable (e : exn)
| OSError
| Failed (e : exn).

Section Create.

(** [define_candidate] of [knowit/utils.py] and the command runner. *)
Variable define_candidate :
  list (string * list string) -> list (string * list string) ->
  string -> option string -> list string.
Variable check_output : string -> check_output_result.

(** The body of [for candidate in ...] of [create], over the candidates
    still to try.  An empty tuple would be false in [if version:]. *)
Fixpoint try_candidates (candidates : list string)
  : outcome (option MediaInfoExecutor.t) :=
  match candidates with
  | [] => Return None
  | candidate :: rest =>
      let found output :=
        match MediaInfoExecutor._get_version output with
        | Raise e => Raise e
        | Return (Some (n :: ns)) =>
            Return (Some {| MediaInfoExecutor.location := candidate;
                            MediaInfoExecutor.version := n :: ns |})
        | Return _ => try_candidates rest
        end in
      match check_output candidate with
      | Completed output => found output
      | CalledProcessError output => found output
      | CalledProcessErrorUndecodable e => Raise e
      | OSError => try_candidates rest
      | Failed e => Raise e
      end
  end.

(** [create(cls, os_family=None, suggested_path=None)] *)
Definition create (os_family : string) (suggested_path : option string)
  : outcome (option MediaInfoExecutor.t) :=
  try_candidates
    (define_candidate MediaInfoExecutor.locations names os_family suggested_path).

End Create.

End MediaInfoCliExecutor.

Module MediaInfoCTypesExecutor.

(** The class attribute [names]. *)
Definition names : list (string * list string) :=
  [("unix", ["libmediainfo.so.0"]);
   ("windows", ["MediaInfo.dll"]);
   ("macos", ["libmediainfo.0.dylib"; "libmediainfo.dylib"])].

Section Create.

(** [define_candidate] of [knowit/utils.py], [MediaInfo.can_parse], and the
    answer of the library found at a candidate to
    [MediaInfo_Option(None, "Info_Version", "")]. *)
Variable define_candidate :
  list (string * list string) -> list (string * list string) ->
  string -> option string -> list string.
Variable can_parse : string -> bool.
Variable info_version : string -> string.

(** The body of [for candidate in ...] of [create].  The arguments of
    [logger.debug] are computed before the call, and [map(str, version)]
    raises [TypeError] when [version] is [None]. *)
Fixpoint try_candidates (candidates : list string)
  : outcome (option MediaInfoExecutor.t) :=
  match candidates with
  | [] => Return None
  | candidate :: rest =>
      if can_parse candidate then
        match MediaInfoExecutor._get_version (info_version candidate) with
        | Raise e => Raise e
        | Return None => Raise TypeError
        | Return (Some version) =>
            Return (Some {| MediaInfoExecutor.location := candidate;
                            MediaInfoExecutor.version := version |})
        end
      else try_candidates rest
  end.

(** [create(cls, os_family=None, suggested_path=None)] *)
Definition create (os_family : string) (suggested_path : option string)
  : outcome (option MediaInfoExecutor.t) :=
  try_candidates
    (define_candidate MediaInfoExecutor.locations names os_family suggested_path).

End Create.

End MediaInfoCTypesExecutor.

Module MediaInfoProvider.

(** What the attribute [executor] holds: [None] (nothing was found), [False]
    (nothing was found and the warning was already printed) or an
    executor. *)
Inductive executor_slot : Type :=
| ex_None
| ex_False
| ex_Some (e : MediaInfoExecutor.t).

Record t : Type := {
  executor : executor_slot
}.

(** The lists the loop of [describe] fills. *)
Record groups : Type := {
  general_tracks : list value;
  video_tracks : list value;
  audio_tracks : list value;
  subtitle_tracks : list value
}.

Definition no_groups : groups := {|
  general_tracks := []; video_tracks := [];
  audio_tracks := []; subtitle_tracks := []
|}.

(** The body of [for track in tracks: ...], run over the elements of
    [tracks] from left to right. *)
Fixpoint classify (tracks : list value) (g : groups) : outcome groups :=
  match tracks with
  | [] => Return g
  | track :: rest =>
      match get track "@type" VNone with
      | Raise e => Raise e
      | Return track_type =>
          if eq_str track_type "General" then
            classify rest {| general_tracks := general_tracks g ++ [track];
                             video_tracks := video_tracks g;
                             audio_tracks := audio_tracks g;
                             subtitle_tracks := subtitle_tracks g |}
          else if eq_str track_type "Video" then
            classify rest {| general_tracks := general_tracks g;
                             video_tracks := video_tracks g ++ [track];
                             audio_tracks := audio_tracks g;
                             subtitle_tracks := subtitle_tracks g |}
          else if eq_str track_type "Audio" then
            classify rest {| general_tracks := general_tracks g;
                             video_tracks := video_tracks g;
                             audio_tracks := audio_tracks g ++ [track];
                             subtitle_tracks := subtitle_tracks g |}
          else if eq_str track_type "Text" then
            classify rest {| general_tracks := general_tracks g;
                             video_tracks := video_tracks g;
                             audio_tracks := audio_tracks g;
                             subtitle_tracks := subtitle_tracks g ++ [track] |}
          else classify rest g
      end
  end.

(** [data.get('media', {}).get('track', [])] *)
Definition tracks_of (data : value) : outcome value :=
  match get data "media" (VDict []) with
  | Return media => get media "track" (VList [])
  | Raise e => Raise e
  end.

(** [general_tracks[0] if general_tracks else {}] *)
Definition general_track (g : groups) : value :=
  match general_tracks g with
  | track :: _ => track
  | [] => VDict []
  end.

Section Provider.

(** [VIDEO_EXTENSIONS] of [knowit/__init__.py], a tuple of suffixes, and
    [pymediainfo.__version__]. *)
Variable VIDEO_EXTENSIONS : list string.
Variable pymediainfo_version : string.

(** [json.loads(executor.extract_info(video_path))]: the external tool's
    output, decoded; it fails when the tool or the decoding does. *)
Variable extract_info : MediaInfoExecutor.t -> string -> outcome value.

(** [Provider._describe_tracks] of [knowit/provider.py], inherited by the
    provider: it normalizes the classified tracks and may record warnings. *)
Variable _describe_tracks :
  string -> value -> list value -> list value -> list value -> M value.

(** [__init__]: the schema goes to the base class; the executor is looked
    up once. *)
Definition init (lookup : option MediaInfoExecutor.t) : t := {|
  executor := match lookup with
              | Some e => ex_Some e
              | None => ex_None
              end
|}.

(** [accepts(self, video_path)]: returns the value of
    [self.executor and video_path.lower().endswith(VIDEO_EXTENSIONS)]
    together with the provider, whose [executor] the call may have
    replaced.  An executor object is always true. *)
Definition accepts (self : t) (video_path : string) : value * t :=
  let self' :=
    match executor self with
    | ex_None => {| executor := ex_False |}
    | _ => self
    end in
  (match executor self' with
   | ex_None => VNone
   | ex_False => VBool false
   | ex_Some _ => VBool (endswith (lower video_path) VIDEO_EXTENSIONS)
   end, self').

(** The property [version]. *)
Definition version (self : t) : value :=
  let versions := [("pymediainfo", VStr pymediainfo_version)] in
  match executor self with
  | ex_Some e =>
      let executor_version :=
        join "." (map str_of_int (MediaInfoExecutor.version e)) in
      VDict (dict_set versions (MediaInfoExecutor.location e)
                      (VStr ("v" ++ executor_version)))
  | _ => VDict versions
  end.

(** The end of [describe]: an empty result is refused, any other gets the
    provider block and is returned. *)
Definition with_provider (self : t) (result : value) : M value :=
  if negb (truthy result) then raise MalformedFileError
  else
    lift (setitem result "provider"
                  (VDict [("name", VStr "mediainfo"); ("version", version self)])).

(** [describe(self, video_path, context)].  Logging is left out. *)
Definition describe (self : t) (video_path : string) : M value :=
  data <- match executor self with
          | ex_Some e => lift (extract_info e video_path)
          | _ => raise AttributeError
          end ;;
  set_debug_data data ;;
  tracks <- lift (tracks_of data) ;;
  result <- (if truthy tracks then
               elements <- lift (iter tracks) ;;
               g <- lift (classify elements no_groups) ;;
               _describe_tracks video_path (general_track g) (video_tracks g)
                                (audio_tracks g) (subtitle_tracks g)
             else ret (VDict [])) ;;
  with_provider self result.

End Provider.

End MediaInfoProvider.

(** ** A schema-driven [_describe_tracks] *)

Module Schema.

(** Modelled from the spec: the handlers of a schema, "a single capability
    interface with one implementing variant per concrete behavior"; the
    variants are the three handlers defined above. *)
Inductive handler : Type :=
| Plain (p : Property.t)
| BasicOf (b : Basic.t)
| Channels (p : Property.t).

Definition raw_name (h : handler) : string :=
  match h with
  | Plain p => Property.name p
  | BasicOf b => Property.name (Basic.property b)
  | Channels p => Property.name p
  end.

Definition handle (h : handler) (v : value) : M value :=
  match h with
  | Plain p => Property.handle p v
  | BasicOf b => Basic.handle b v
  | Channels p => AudioChannels.handle p v
  end.

(** Output field name and handler, in declaration order. *)
Definition fields : Type := list (string * handler).

Record t : Type := {
  general : fields;
  video : fields;
  audio : fields;
  subtitle : fields
}.

(** Modelled from the spec: NORMALIZE of [Provider._describe_track]
    ([knowit/provider.py] is not part of the sources at hand).  "For each
    declared property field in schema order, look up the raw value by the
    declared raw field name, invoke the handler, store non-omitted results
    under the declared output name"; a missing raw field does not invoke
    the handler.  The rules of the schema are left out. *)
Fixpoint describe_track (schema : fields) (track : value)
  : M (list (string * value)) :=
  match schema with
  | [] => ret []
  | (output_name, h) :: rest =>
      raw <- lift (get track (raw_name h) VNone) ;;
      v <- match raw with
           | VNone => ret VNone
           | _ => handle h raw
           end ;;
      normalized <- describe_track rest track ;;
      ret match v with
          | VNone => normalized
          | _ => (output_name, v) :: normalized
          end
  end.

(** Modelled from the spec: NORMALIZE, track by track and in list order. *)
Fixpoint describe_each (schema : fields) (tracks : list value) : M (list value) :=
  match tracks with
  | [] => ret []
  | track :: rest =>
      normalized <- describe_track schema track ;;
      others <- describe_each schema rest ;;
      ret (VDict normalized :: others)
  end.

(** Modelled from the spec: ASSEMBLE of [Provider._describe_tracks].
    "Build the final result as [{general, video, audio, subtitle}]; empty
    track lists are valid and preserved as empty sequences, never
    omitted." *)
Definition describe_tracks (schema : t) (video_path : string)
           (general_track : value) (video_tracks audio_tracks subtitle_tracks : list value)
  : M value :=
  g <- describe_track (general schema) general_track ;;
  vs <- describe_each (video schema) video_tracks ;;
  aus <- describe_each (audio schema) audio_tracks ;;
  ss <- describe_each (subtitle schema) subtitle_tracks ;;
  ret (VDict [("general", VDict g); ("video", VList vs);
              ("audio", VList aus); ("subtitle", VList ss)]).

(** A part of the schema [MediaInfoProvider.__init__] declares: the entries
    whose handlers are among the three variants above.  The provider wraps
    the handler of [channels_count] in [MultiValue], which is not part of
    the sources at hand; here the handler is applied to the raw value as it
    is, so the two agree only on a raw value [MultiValue] passes on whole
    (a string without the delimiter). *)
Definition track_id (description : string) : handler :=
  BasicOf (Basic.init "ID" py_int (Some true) description).

Definition mediainfo : t := {|
  general :=
    [("title", Plain {| Property.name := "Title"; Property.description := "media title" |});
     ("path", Plain {| Property.name := "CompleteName"; Property.description := "media path" |})];
  video :=
    [("id", track_id "video track number");
     ("name", Plain {| Property.name := "name"; Property.description := "video track name" |});
     ("media_type", Plain {| Property.name := "InternetMediaType";
                             Property.description := "video media type" |})];
  audio :=
    [("id", track_id "audio track number");
     ("name", Plain {| Property.name := "Title"; Property.description := "audio track name" |});
     ("channels_count", Channels {| Property.name := "Channels";
                                    Property.description := "audio channels count" |})];
  subtitle :=
    [("id", track_id "subtitle track number");
     ("name", Plain {| Property.name := "Title"; Property.description := "subtitle track name" |})]
|}.

End Schema.

(** ** Raw tracks and their type discriminator *)

(** A raw track: the mapping from raw field names to raw values. *)
Definition RawTrack : Type := list (string * value).

(** The track's ["@type"] is the string [ty]. *)
Definition has_type (ty : string) (track : RawTrack) : bool :=
  match dict_get track "@type" with
  | Some v => eq_str v ty
  | None => false
  end.

(** The tracks of one type, in list order. *)
Definition tracks_of_type (ty : string) (tracks : list RawTrack) : list value :=
  map VDict (filter (has_type ty) tracks).

(** The ["@type"] is absent or none of the four known discriminators. *)
Definition unknown_type (track : RawTrack) : bool :=
  negb (has_type "General" track || has_type "Video" track
        || has_type "Audio" track || has_type "Text" track).

(** The computation does not read the debug data: run on a context that
    holds other debug data, it returns the same and leaves the same
    warnings. *)
Definition ignores_debug_data {A : Type} (m : M A) : Prop :=
  forall data ctx,
    m (snd (set_debug_data data ctx)) =
    (fst (m ctx), snd (set_debug_data data (snd (m ctx)))).

(** [isinstance(v, dict)] *)
Definition is_dict (v : value) : bool :=
  match v with VDict _ => true | _ => false end.

(** The partition the specification describes. *)
Definition partition_by_type (tracks : list RawTrack) : MediaInfoProvider.groups := {|
  MediaInfoProvider.general_tracks := tracks_of_type "General" tracks;
  MediaInfoProvider.video_tracks := tracks_of_type "Video" tracks;
  MediaInfoProvider.audio_tracks := tracks_of_type "Audio" tracks;
  MediaInfoProvider.subtitle_tracks := tracks_of_type "Text" tracks
|}.

(** ** A probe output to run the provider on *)

Module Sample.

Definition libmediainfo : MediaInfoExecutor.t := {|
  MediaInfoExecutor.location := "libmediainfo.so.0";
  MediaInfoExecutor.version := [21; 9]
|}.

Definition provider : MediaInfoProvider.t :=
  MediaInfoProvider.init (Some libmediainfo).

Definition general : RawTrack :=
  [("@type", VStr "General"); ("Title", VStr "Sample"); ("VideoCount", VStr "1")].

Definition second_general : RawTrack :=
  [("@type", VStr "General"); ("Title", VStr "Other")].

Definition video : RawTrack :=
  [("@type", VStr "Video"); ("ID", VStr "1"); ("InternetMediaType", VStr "video/H264")].

Definition audio : RawTrack :=
  [("@type", VStr "Audio"); ("ID", VStr "2"); ("Channels", VStr "six")].

Definition menu : RawTrack :=
  [("@type", VStr "Menu"); ("ID", VStr "3")].

(** The decoded output of the tool: [{media: {track: [...]}}]. *)
Definition probe_output (tracks : list RawTrack) : value :=
  VDict [("media", VDict [("@ref", VStr "sample.mkv");
                          ("track", VList (map VDict tracks))])].

(** [describe] with the tool's output fixed and the schema-driven
    [_describe_tracks]. *)
Definition describe (tracks : list RawTrack) : M value :=
  MediaInfoProvider.describe
    "5.1.0" (fun _ _ => Return (probe_output tracks))
    (Schema.describe_tracks Schema.mediainfo) provider "sample.mkv".

(** A track-number property as the provider declares it. *)
Definition track_id : Basic.t :=
  Basic.init "ID" py_int (Some true) "video track number".

End Sample.

(** ** Decimal numerals as lists of characters *)

Module Numeral.

(** A non-empty run of decimal digits. *)
Definition digit_string (ds : list ascii) : Prop :=
  ds <> [] /\ forallb MediaInfoExecutor.is_digit ds = true.

(** The number a run of digits denotes, continuing from [acc]. *)
Definition decimal_value (acc : Z) (ds : list ascii) : Z :=
  fold_left (fun a c => 10 * a + Z.of_nat (nat_of_ascii c - 48)) ds acc.

(** [.d1.d2...dn] *)
Definition dotted (dss : list (list ascii)) : list ascii :=
  List.concat (map (fun ds => "."%char :: ds) dss).

End Numeral.

(** * The builtins on examples *)

Example int_of_str_6 : int_of_str "6" = Some 6. Proof. reflexivity. Qed.
Example int_of_str_pad : int_of_str "  -1_000 " = Some (-1000). Proof. reflexivity. Qed.
Example int_of_str_six : int_of_str "six" = None. Proof. reflexivity. Qed.
Example int_of_str_empty : int_of_str "" = None. Proof. reflexivity. Qed.
Example int_of_str_us : int_of_str "1__0" = None. Proof. reflexivity. Qed.
Example int_of_str_us2 : int_of_str "10_" = None. Proof. reflexivity. Qed.
Example int_of_str_sign : int_of_str "+ 6" = None. Proof. reflexivity. Qed.
Example lower_ex : lower "Object BASED" = "object based". Proof. reflexivity. Qed.
Example endswith_ex : endswith "movie.mkv" [".avi"; ".mkv"] = true. Proof. reflexivity. Qed.
Example str_of_int_ex : str_of_int 21 = "21" /\ str_of_int 0 = "0" /\ str_of_int (-3) = "-3".
Proof. repeat split; reflexivity. Qed.
Example int_of_float_ex : int_of_float 2.5%float = Return 2 /\ int_of_float (-7.5)%float = Return (-7).
Proof. split; vm_compute; reflexivity. Qed.
Example float_of_int_ex : float_of_int 3 = Return 3%float.
Proof. vm_compute. reflexivity. Qed.

(** * Properties of the handlers *)

Ltac run_handler :=
  unfold Basic.handle, AudioChannels.handle, Property.report,
         Context.bind, Context.ret, Context.raise, Context.lift;
  simpl.

(** [Basic.handle] on a value of the declared type. *)
Lemma basic_handle_instance : forall (self : Basic.t) v ctx,
  isinstance (Basic.data_type self) v = true ->
  Basic.handle self v ctx = (Return v, ctx).
Proof.
  intros self v ctx H. unfold Basic.handle. rewrite H. reflexivity.
Qed.

(** [Basic.handle] when the call of the declared type raises [ValueError]. *)
Lemma basic_handle_value_error : forall (self : Basic.t) v ctx,
  isinstance (Basic.data_type self) v = false ->
  construct (Basic.data_type self) v = Raise ValueError ->
  Basic.handle self v ctx =
  (Return VNone,
   if Basic.allow_fallback self then ctx
   else record_warning ctx
          {| reporter := Property.name (Basic.property self); reported := v |}).
Proof.
  intros self v ctx Hi Hc. unfold Basic.handle. rewrite Hi, Hc.
  destruct (Basic.allow_fallback self); reflexivity.
Qed.

(** [Basic.handle] when the call of the declared type returns. *)
Lemma basic_handle_constructed : forall (self : Basic.t) v x ctx,
  isinstance (Basic.data_type self) v = false ->
  construct (Basic.data_type self) v = Return x ->
  Basic.handle self v ctx = (Return x, ctx).
Proof.
  intros self v x ctx Hi Hc. unfold Basic.handle. rewrite Hi, Hc. reflexivity.
Qed.

(** A primitive type called on a string returns an instance of itself or
    raises [ValueError]. *)
Lemma primitive_on_str : forall fs sv (p : primitive) s,
  construct (type_of fs sv p) (VStr s) = Raise ValueError \/
  exists x, construct (type_of fs sv p) (VStr s) = Return x
            /\ isinstance (type_of fs sv p) x = true.
Proof.
  intros fs sv p s. destruct p; simpl.
  - destruct (int_of_str s); [right; eexists; split; reflexivity | left; reflexivity].
  - destruct (fs s); [right; eexists; split; reflexivity | left; reflexivity].
  - right; eexists; split; reflexivity.
  - right; eexists; split; reflexivity.
Qed.

(** A string the primitive type refuses is not an instance of it. *)
Lemma primitive_refuses_non_instance : forall fs sv (p : primitive) s,
  construct (type_of fs sv p) (VStr s) = Raise ValueError ->
  isinstance (type_of fs sv p) (VStr s) = false.
Proof.
  intros fs sv p s H. destruct p; simpl in *; try reflexivity; discriminate.
Qed.

(** [AudioChannels.handle] on a string, case by case. *)
Lemma audio_channels_on_str : forall (self : Property.t) s ctx,
  AudioChannels.handle self (VStr s) ctx =
  if AudioChannels.is_ignored (lower s) then (Return VNone, ctx)
  else match int_of_str (lower s) with
       | Some z => (Return (VInt z), ctx)
       | None => (Return VNone,
                  record_warning ctx
                    {| reporter := Property.name self; reported := VStr s |})
       end.
Proof.
  intros self s ctx. run_handler.
  destruct (AudioChannels.is_ignored (lower s)); simpl; [reflexivity|].
  destruct (int_of_str (lower s)); reflexivity.
Qed.

(** C2. The [AudioChannels] handler, for any property declaration and any
    context: ["6"] yields the integer 6 and leaves the context alone;
    ["object based"] yields no value and leaves the context alone; ["six"]
    yields no value and records exactly one warning, naming the raw value. *)
Theorem audio_channels_examples : forall (self : Property.t) (ctx : context),
  AudioChannels.handle self (VStr "6") ctx = (Return (VInt 6), ctx) /\
  AudioChannels.handle self (VStr "object based") ctx = (Return VNone, ctx) /\
  AudioChannels.handle self (VStr "six") ctx =
    (Return VNone,
     record_warning ctx {| reporter := Property.name self; reported := VStr "six" |}) /\
  warnings (snd (AudioChannels.handle self (VStr "six") ctx)) =
    warnings ctx ++ [{| reporter := Property.name self; reported := VStr "six" |}].
Proof.
  intros self ctx. repeat split; rewrite audio_channels_on_str; reflexivity.
Qed.

(** C9. Matching against the ignored tokens is case-insensitive: every
    string whose lowercasing is ["object based"] yields no value and
    records no warning. *)
Theorem audio_channels_ignored_case_insensitive :
  forall (self : Property.t) (s : string) (ctx : context),
    lower s = "object based" ->
    AudioChannels.handle self (VStr s) ctx = (Return VNone, ctx).
Proof.
  intros self s ctx H. rewrite audio_channels_on_str, H. reflexivity.
Qed.

(** C6. A raw value that is already an instance of the handler's target
    type comes back unchanged, and nothing is recorded: for [Basic] with
    any declared type, and for [AudioChannels], whose target type is
    [int]. *)
Theorem handle_identity_on_typed_input :
  (forall (self : Basic.t) (v : value) (ctx : context),
      isinstance (Basic.data_type self) v = true ->
      Basic.handle self v ctx = (Return v, ctx)) /\
  (forall (self : Property.t) (v : value) (ctx : context),
      isinstance py_int v = true ->
      AudioChannels.handle self v ctx = (Return v, ctx)).
Proof.
  split.
  - exact basic_handle_instance.
  - intros self v ctx H. unfold AudioChannels.handle. rewrite H. reflexivity.
Qed.

(** C3, as amended.  For a [Basic] property declared with a primitive type
    and a string that type refuses: without [allow_fallback] (the default)
    the value is reported, one warning is recorded and no value is
    returned; with [allow_fallback] no value is returned either and the
    context is left alone. *)
Theorem basic_coercion_failure :
  forall fs sv (p : primitive) (prop : Property.t) (fallback : bool)
         (s : string) (ctx : context),
    construct (type_of fs sv p) (VStr s) = Raise ValueError ->
    Basic.handle {| Basic.property := prop;
                    Basic.data_type := type_of fs sv p;
                    Basic.allow_fallback := fallback |} (VStr s) ctx =
    (Return VNone,
     if fallback then ctx
     else record_warning ctx {| reporter := Property.name prop; reported := VStr s |}).
Proof.
  intros fs sv p prop fallback s ctx H.
  rewrite basic_handle_value_error; simpl; auto.
  now apply primitive_refuses_non_instance.
Qed.

(** C4. On a string, neither handler raises: [Basic], declared with a
    primitive type, and [AudioChannels] return a value of the target type
    with the context untouched, or return no value with the context
    untouched or extended by one warning. *)
Theorem handlers_never_raise_on_strings :
  forall fs sv (p : primitive) (prop : Property.t) (fallback : bool)
         (s : string) (ctx : context),
    (exists r ctx',
        Basic.handle {| Basic.property := prop;
                        Basic.data_type := type_of fs sv p;
                        Basic.allow_fallback := fallback |} (VStr s) ctx
        = (Return r, ctx') /\
        ((isinstance (type_of fs sv p) r = true /\ ctx' = ctx) \/
         (r = VNone /\ (ctx' = ctx \/ exists w, ctx' = record_warning ctx w)))) /\
    (exists r ctx',
        AudioChannels.handle prop (VStr s) ctx = (Return r, ctx') /\
        ((isinstance py_int r = true /\ ctx' = ctx) \/
         (r = VNone /\ (ctx' = ctx \/ exists w, ctx' = record_warning ctx w)))).
Proof.
  intros fs sv p prop fallback s ctx. split.
  - destruct (isinstance (type_of fs sv p) (VStr s)) eqn:Hi.
    + exists (VStr s), ctx. rewrite basic_handle_instance by exact Hi. auto.
    + destruct (primitive_on_str fs sv p s) as [He | [x [Hx Hix]]].
      * eexists _, _. rewrite basic_handle_value_error by (simpl; assumption).
        split; [reflexivity|]. right. split; [reflexivity|].
        simpl. destruct fallback; [left; reflexivity | right; eexists; reflexivity].
      * exists x, ctx. rewrite (basic_handle_constructed _ _ x) by (simpl; assumption).
        auto.
  - rewrite audio_channels_on_str.
    destruct (AudioChannels.is_ignored (lower s)).
    + exists VNone, ctx. auto.
    + destruct (int_of_str (lower s)) as [z|].
      * exists (VInt z), ctx. auto.
      * eexists _, _. split; [reflexivity|]. right. split; [reflexivity|].
        right. eexists. reflexivity.
Qed.

(** * Properties of the provider *)

Import MediaInfoProvider.

(** ** Dictionaries *)

Lemma dict_get_set_same : forall kv key v,
  dict_get (dict_set kv key v) key = Some v.
Proof.
  induction kv as [|[k w] rest IH]; intros key v; simpl.
  - now rewrite String.eqb_refl.
  - destruct (String.eqb k key) eqn:E; simpl; rewrite E; auto.
Qed.

(** ** The classification loop *)

(** What [track.get('@type')] yields on a raw track. *)
Lemma get_type : forall (track : RawTrack),
  get (VDict track) "@type" VNone =
  Return (match dict_get track "@type" with Some v => v | None => VNone end).
Proof. reflexivity. Qed.

Lemma has_type_eq_str : forall ty (track : RawTrack),
  has_type ty track =
  eq_str (match dict_get track "@type" with Some v => v | None => VNone end) ty.
Proof.
  intros ty track. unfold has_type. destruct (dict_get track "@type"); reflexivity.
Qed.

Lemma eq_str_exclusive : forall v a b,
  eq_str v a = true -> String.eqb a b = false -> eq_str v b = false.
Proof.
  intros v a b Ha Hab. destruct v; simpl in *; try reflexivity.
  apply String.eqb_eq in Ha. now subst.
Qed.

Lemma tracks_of_type_cons : forall ty (track : RawTrack) tracks,
  tracks_of_type ty (track :: tracks) =
  if has_type ty track then VDict track :: tracks_of_type ty tracks
  else tracks_of_type ty tracks.
Proof.
  intros. unfold tracks_of_type. simpl. destruct (has_type ty track); reflexivity.
Qed.

Lemma tracks_of_type_app : forall ty l1 l2,
  tracks_of_type ty (l1 ++ l2) = tracks_of_type ty l1 ++ tracks_of_type ty l2.
Proof.
  intros. unfold tracks_of_type. now rewrite filter_app, map_app.
Qed.

(** The loop, started from any lists, appends to each list the tracks of
    its type and never raises on raw tracks. *)
Lemma classify_appends : forall (tracks : list RawTrack) g,
  classify (map VDict tracks) g =
  Return {| general_tracks := general_tracks g ++ tracks_of_type "General" tracks;
            video_tracks := video_tracks g ++ tracks_of_type "Video" tracks;
            audio_tracks := audio_tracks g ++ tracks_of_type "Audio" tracks;
            subtitle_tracks := subtitle_tracks g ++ tracks_of_type "Text" tracks |}.
Proof.
  induction tracks as [|track rest IH]; intros g.
  - simpl. unfold tracks_of_type. simpl. rewrite !app_nil_r. now destruct g.
  - cbn [map classify]. rewrite get_type.
    rewrite !tracks_of_type_cons, !has_type_eq_str.
    set (ty := match dict_get track "@type" with Some v => v | None => VNone end).
    destruct (eq_str ty "General") eqn:EG.
    { rewrite IH. cbn [general_tracks video_tracks audio_tracks subtitle_tracks].
      rewrite (eq_str_exclusive ty "General" "Video"),
              (eq_str_exclusive ty "General" "Audio"),
              (eq_str_exclusive ty "General" "Text") by (assumption || reflexivity).
      now rewrite <- app_assoc. }
    destruct (eq_str ty "Video") eqn:EV.
    { rewrite IH. cbn [general_tracks video_tracks audio_tracks subtitle_tracks].
      rewrite (eq_str_exclusive ty "Video" "Audio"),
              (eq_str_exclusive ty "Video" "Text") by (assumption || reflexivity).
      now rewrite <- app_assoc. }
    destruct (eq_str ty "Audio") eqn:EA.
    { rewrite IH. cbn [general_tracks video_tracks audio_tracks subtitle_tracks].
      rewrite (eq_str_exclusive ty "Audio" "Text") by (assumption || reflexivity).
      now rewrite <- app_assoc. }
    destruct (eq_str ty "Text") eqn:ET.
    { rewrite IH. cbn [general_tracks video_tracks audio_tracks subtitle_tracks].
      now rewrite <- app_assoc. }
    apply IH.
Qed.

Lemma classify_partition : forall (tracks : list RawTrack),
  classify (map VDict tracks) no_groups = Return (partition_by_type tracks).
Proof.
  intros tracks. now rewrite classify_appends.
Qed.

(** A track of unknown type belongs to none of the four groups. *)
Lemma unknown_type_no_group : forall (track : RawTrack),
  unknown_type track = true ->
  has_type "General" track = false /\ has_type "Video" track = false /\
  has_type "Audio" track = false /\ has_type "Text" track = false.
Proof.
  unfold unknown_type. intros track H.
  apply negb_true_iff in H. repeat (apply orb_false_iff in H; destruct H as [H ?]).
  auto.
Qed.

Lemma tracks_of_type_drop : forall ty pre (track : RawTrack) post,
  has_type ty track = false ->
  tracks_of_type ty (pre ++ track :: post) = tracks_of_type ty (pre ++ post).
Proof.
  intros ty pre track post H.
  now rewrite !tracks_of_type_app, tracks_of_type_cons, H.
Qed.

Lemma partition_drops_unknown : forall pre (track : RawTrack) post,
  unknown_type track = true ->
  partition_by_type (pre ++ track :: post) = partition_by_type (pre ++ post).
Proof.
  intros pre track post H.
  destruct (unknown_type_no_group track H) as (HG & HV & HA & HT).
  unfold partition_by_type. now rewrite !tracks_of_type_drop by assumption.
Qed.

(** Tracks that are not General do not depend on the General ones. *)
Lemma tracks_of_type_without_general : forall ty tracks,
  String.eqb "General" ty = false ->
  tracks_of_type ty tracks =
  tracks_of_type ty (filter (fun t => negb (has_type "General" t)) tracks).
Proof.
  intros ty tracks Hty. induction tracks as [|track rest IH]; [reflexivity|].
  rewrite tracks_of_type_cons. cbn [filter].
  destruct (has_type "General" track) eqn:HG; cbn [negb].
  - rewrite has_type_eq_str in HG.
    rewrite has_type_eq_str, (eq_str_exclusive _ _ _ HG Hty). exact IH.
  - rewrite tracks_of_type_cons. now rewrite IH.
Qed.

Lemma first_general : forall pre (g : RawTrack) post,
  tracks_of_type "General" pre = [] ->
  has_type "General" g = true ->
  general_track (partition_by_type (pre ++ g :: post)) = VDict g.
Proof.
  intros pre g post Hpre Hg. unfold general_track, partition_by_type.
  cbn [general_tracks]. now rewrite tracks_of_type_app, Hpre, tracks_of_type_cons, Hg.
Qed.

(** ** [describe] *)

Section DescribeProperties.

Variable pymediainfo_version : string.
Variable extract_info : MediaInfoExecutor.t -> string -> outcome value.
Variable _describe_tracks :
  string -> value -> list value -> list value -> list value -> M value.

Local Notation describe :=
  (MediaInfoProvider.describe pymediainfo_version extract_info _describe_tracks).
Local Notation with_provider := (MediaInfoProvider.with_provider pymediainfo_version).
Local Notation version := (MediaInfoProvider.version pymediainfo_version).

(** The context once [describe] has stored the debug-dump producer. *)
Local Notation with_debug_data data ctx := (snd (set_debug_data data ctx)).

(** [describe] when the track list is false: nothing is normalized. *)
Lemma describe_no_tracks : forall self e video_path ctx data tracks,
  executor self = ex_Some e ->
  extract_info e video_path = Return data ->
  tracks_of data = Return tracks ->
  truthy tracks = false ->
  describe self video_path ctx = (Raise MalformedFileError, with_debug_data data ctx).
Proof.
  intros self e video_path ctx data tracks He Hx Ht Hf.
  unfold MediaInfoProvider.describe, Context.bind, Context.lift.
  rewrite He, Hx. simpl. rewrite Ht, Hf. reflexivity.
Qed.

(** [describe] on a non-empty list of raw tracks: the classified tracks go
    to [_describe_tracks], and its result to the end of [describe]. *)
Lemma describe_classified : forall self e video_path ctx data (tracks : list RawTrack),
  executor self = ex_Some e ->
  extract_info e video_path = Return data ->
  tracks_of data = Return (VList (map VDict tracks)) ->
  tracks <> [] ->
  describe self video_path ctx =
  (result <- _describe_tracks video_path
                              (general_track (partition_by_type tracks))
                              (tracks_of_type "Video" tracks)
                              (tracks_of_type "Audio" tracks)
                              (tracks_of_type "Text" tracks) ;;
   with_provider self result) (with_debug_data data ctx).
Proof.
  intros self e video_path ctx data tracks He Hx Ht Hne.
  unfold MediaInfoProvider.describe, Context.bind at 1 2 3, Context.lift.
  rewrite He, Hx. cbn [set_debug_data snd]. rewrite Ht.
  assert (Htrue : truthy (VList (map VDict tracks)) = true)
    by (destruct tracks; [congruence | reflexivity]).
  rewrite Htrue. unfold Context.bind at 2 3. cbn [iter].
  rewrite classify_partition. reflexivity.
Qed.

(** What a returning [with_provider] returns. *)
Lemma with_provider_returns : forall self result ctx r ctx',
  with_provider self result ctx = (Return r, ctx') ->
  exists kv,
    result = VDict kv /\ ctx' = ctx /\
    r = VDict (dict_set kv "provider"
                        (VDict [("name", VStr "mediainfo"); ("version", version self)])).
Proof.
  intros self result ctx r ctx' H. unfold MediaInfoProvider.with_provider in H.
  destruct (truthy result); cbn in H; [|discriminate].
  unfold Context.lift in H. destruct result; cbn in H; try discriminate.
  injection H as <- <-. eauto.
Qed.

(** A returning [describe] had an executor. *)
Lemma describe_returns_executor : forall self video_path ctx r ctx',
  describe self video_path ctx = (Return r, ctx') ->
  exists e, executor self = ex_Some e.
Proof.
  intros self video_path ctx r ctx' H.
  unfold MediaInfoProvider.describe, Context.bind at 1 in H.
  destruct (executor self); cbn in H; try discriminate. eauto.
Qed.

(** A returning [describe] returns what [with_provider] returned. *)
Lemma describe_returns_with_provider : forall self video_path ctx r ctx',
  describe self video_path ctx = (Return r, ctx') ->
  exists result ctx0, with_provider self result ctx0 = (Return r, ctx').
Proof.
  intros self video_path ctx r ctx' H.
  unfold MediaInfoProvider.describe in H.
  unfold Context.bind at 1 in H.
  destruct (match executor self with
            | ex_Some e => lift (extract_info e video_path)
            | _ => raise AttributeError
            end ctx) as [[data|?] c1]; [|discriminate].
  unfold Context.bind at 1 in H. cbn [set_debug_data] in H.
  unfold Context.bind at 1 in H.
  destruct (lift (tracks_of data) _) as [[tracks|?] c2]; [|discriminate].
  unfold Context.bind at 1 in H.
  match type of H with
  | match ?m ?c with _ => _ end = _ => destruct (m c) as [[result|?] c3]; [|discriminate]
  end.
  eauto.
Qed.

(** C1. When the probe output's track list is empty, [describe] raises
    [MalformedFileError]; nothing is normalized and nothing is returned. *)
Theorem describe_empty_track_list_is_malformed :
  forall self e video_path ctx data,
    executor self = ex_Some e ->
    extract_info e video_path = Return data ->
    tracks_of data = Return (VList []) ->
    describe self video_path ctx = (Raise MalformedFileError, with_debug_data data ctx).
Proof.
  intros self e video_path ctx data He Hx Ht.
  now apply (describe_no_tracks self e video_path ctx data (VList [])).
Qed.

(** C10. When the first General track of the list is [g], [describe]
    passes [g] as the general track, and the other arguments are the
    Video, Audio and Text tracks of the list: a later General track is
    passed nowhere, and the outcome, warnings included, is that of
    [_describe_tracks] on these arguments followed by the end of
    [describe]. *)
Theorem describe_uses_first_general_track :
  forall self e video_path ctx data (pre : list RawTrack) (g : RawTrack) post,
    executor self = ex_Some e ->
    extract_info e video_path = Return data ->
    tracks_of data = Return (VList (map VDict (pre ++ g :: post))) ->
    tracks_of_type "General" pre = [] ->
    has_type "General" g = true ->
    let others := filter (fun t => negb (has_type "General" t)) (pre ++ post) in
    general_track (partition_by_type (pre ++ g :: post)) = VDict g /\
    describe self video_path ctx =
      (result <- _describe_tracks video_path (VDict g)
                                  (tracks_of_type "Video" others)
                                  (tracks_of_type "Audio" others)
                                  (tracks_of_type "Text" others) ;;
       with_provider self result) (with_debug_data data ctx).
Proof.
  intros self e video_path ctx data pre g post He Hx Ht Hpre Hg others.
  split; [now apply first_general|].
  rewrite (describe_classified self e video_path ctx data _ He Hx Ht)
    by (destruct pre; discriminate).
  rewrite first_general by assumption.
  assert (Hothers : forall ty, String.eqb "General" ty = false ->
                     tracks_of_type ty (pre ++ g :: post) = tracks_of_type ty others).
  { intros ty Hty. subst others.
    rewrite (tracks_of_type_without_general ty (pre ++ g :: post) Hty).
    rewrite !filter_app. cbn [filter]. now rewrite Hg. }
  now rewrite !Hothers by reflexivity.
Qed.

(** C8. A result [describe] returns is a dictionary whose ['provider']
    entry is [{name: 'mediainfo', version: self.version}], where the
    version block is the one the property [version] builds from the
    executor: the binding's version and, under the executor's location,
    the tool's version. *)
Theorem describe_result_has_provider_block :
  forall self video_path ctx r ctx',
    describe self video_path ctx = (Return r, ctx') ->
    exists kv e,
      r = VDict kv /\
      dict_get kv "provider" =
        Some (VDict [("name", VStr "mediainfo"); ("version", version self)]) /\
      executor self = ex_Some e /\
      version self =
        VDict (dict_set [("pymediainfo", VStr pymediainfo_version)]
                        (MediaInfoExecutor.location e)
                        (VStr ("v" ++ join "." (map str_of_int (MediaInfoExecutor.version e))))).
Proof.
  intros self video_path ctx r ctx' H.
  destruct (describe_returns_executor _ _ _ _ _ H) as [e He].
  destruct (describe_returns_with_provider _ _ _ _ _ H) as (result & c0 & Hw).
  destruct (with_provider_returns _ _ _ _ _ Hw) as (kv & -> & -> & ->).
  eexists _, e. split; [reflexivity|]. split; [apply dict_get_set_same|].
  split; [exact He|]. unfold MediaInfoProvider.version. now rewrite He.
Qed.

End DescribeProperties.

(** The end of [describe] leaves the context alone, and what it returns
    or raises depends on the result only. *)
Lemma with_provider_context : forall pymediainfo_version self result ctx ctx',
  snd (MediaInfoProvider.with_provider pymediainfo_version self result ctx) = ctx /\
  fst (MediaInfoProvider.with_provider pymediainfo_version self result ctx) =
  fst (MediaInfoProvider.with_provider pymediainfo_version self result ctx').
Proof.
  intros. unfold MediaInfoProvider.with_provider.
  destruct (negb (truthy result)); split; reflexivity.
Qed.

(** C5, as amended.  The loop of [describe] partitions every list of raw
    tracks by ["@type"] into the General, Video, Audio and Text groups, in
    list order and without raising.  A track whose ["@type"] is anything
    else, or absent, is in no group; as long as the list holds another
    track, [describe] calls [_describe_tracks] with the arguments it gets
    for the list without that track, and, for a [_describe_tracks] that
    does not read the debug data, returns or raises the same and records
    the same warnings as for the list without it. *)
Theorem describe_drops_unknown_tracks :
  forall pymediainfo_version extract_info extract_info'
         (_describe_tracks :
            string -> value -> list value -> list value -> list value -> M value)
         self e video_path ctx data data' (pre : list RawTrack) unknown post,
    executor self = ex_Some e ->
    extract_info e video_path = Return data ->
    tracks_of data = Return (VList (map VDict (pre ++ unknown :: post))) ->
    extract_info' e video_path = Return data' ->
    tracks_of data' = Return (VList (map VDict (pre ++ post))) ->
    unknown_type unknown = true ->
    pre ++ post <> [] ->
    (forall g vs aus ss, ignores_debug_data (_describe_tracks video_path g vs aus ss)) ->
    (forall tracks : list RawTrack,
        classify (map VDict tracks) no_groups = Return (partition_by_type tracks)) /\
    partition_by_type (pre ++ unknown :: post) = partition_by_type (pre ++ post) /\
    MediaInfoProvider.describe pymediainfo_version extract_info _describe_tracks
                               self video_path ctx =
      (result <- _describe_tracks video_path
                                  (general_track (partition_by_type (pre ++ post)))
                                  (video_tracks (partition_by_type (pre ++ post)))
                                  (audio_tracks (partition_by_type (pre ++ post)))
                                  (subtitle_tracks (partition_by_type (pre ++ post))) ;;
       MediaInfoProvider.with_provider pymediainfo_version self result)
        (snd (set_debug_data data ctx)) /\
    fst (MediaInfoProvider.describe pymediainfo_version extract_info _describe_tracks
                                    self video_path ctx) =
    fst (MediaInfoProvider.describe pymediainfo_version extract_info' _describe_tracks
                                    self video_path ctx) /\
    warnings (snd (MediaInfoProvider.describe pymediainfo_version extract_info
                                              _describe_tracks self video_path ctx)) =
    warnings (snd (MediaInfoProvider.describe pymediainfo_version extract_info'
                                              _describe_tracks self video_path ctx)).
Proof.
  intros pymediainfo_version extract_info extract_info' _describe_tracks
         self e video_path ctx data data' pre unknown post
         He Hx Ht Hx' Ht' Hu Hne Hign.
  pose proof (partition_drops_unknown pre unknown post Hu) as Hsame.
  pose proof (describe_classified pymediainfo_version extract_info _describe_tracks
                self e video_path ctx data (pre ++ unknown :: post) He Hx Ht
                ltac:(destruct pre; discriminate)) as Hd.
  pose proof (describe_classified pymediainfo_version extract_info' _describe_tracks
                self e video_path ctx data' (pre ++ post) He Hx' Ht' Hne) as Hd'.
  change (tracks_of_type "Video" (pre ++ unknown :: post))
    with (video_tracks (partition_by_type (pre ++ unknown :: post))) in Hd.
  change (tracks_of_type "Audio" (pre ++ unknown :: post))
    with (audio_tracks (partition_by_type (pre ++ unknown :: post))) in Hd.
  change (tracks_of_type "Text" (pre ++ unknown :: post))
    with (subtitle_tracks (partition_by_type (pre ++ unknown :: post))) in Hd.
  rewrite Hsame in Hd.
  split; [exact classify_partition|]. split; [exact Hsame|]. split; [exact Hd|].
  rewrite Hd, Hd'. unfold Context.bind.
  change (tracks_of_type "Video" (pre ++ post))
    with (video_tracks (partition_by_type (pre ++ post))).
  change (tracks_of_type "Audio" (pre ++ post))
    with (audio_tracks (partition_by_type (pre ++ post))).
  change (tracks_of_type "Text" (pre ++ post))
    with (subtitle_tracks (partition_by_type (pre ++ post))).
  rewrite (Hign _ _ _ _ data ctx), (Hign _ _ _ _ data' ctx).
  destruct (_describe_tracks video_path _ _ _ _ ctx) as [[result|err] c];
    cbn [fst snd]; [|split; reflexivity].
  destruct (with_provider_context pymediainfo_version self result
              (snd (set_debug_data data c)) (snd (set_debug_data data' c))) as [Hc Hr].
  destruct (with_provider_context pymediainfo_version self result
              (snd (set_debug_data data' c)) (snd (set_debug_data data c))) as [Hc' _].
  split; [exact Hr|]. rewrite Hc, Hc'. reflexivity.
Qed.

(** ** [accepts] *)

Lemma get_executor_instance_none : forall os ctypes_create cli_create suggested_path,
  MediaInfoExecutor.get_executor_instance os ctypes_create cli_create suggested_path = None <->
  ctypes_create os suggested_path = None /\ cli_create os suggested_path = None.
Proof.
  intros os ctypes_create cli_create suggested_path.
  unfold MediaInfoExecutor.get_executor_instance.
  destruct (ctypes_create os suggested_path), (cli_create os suggested_path);
    split; intros H; try discriminate; try (destruct H; discriminate); auto.
Qed.

(** C7. When the lookup finds no executor, the provider starts without
    one, and from then on every call of [accepts], whatever the path,
    returns [False] and leaves the provider without an executor. *)
Theorem accepts_nothing_without_executor :
  forall VIDEO_EXTENSIONS os ctypes_create cli_create suggested_path,
    MediaInfoExecutor.get_executor_instance os ctypes_create cli_create suggested_path = None ->
    let self :=
      init (MediaInfoExecutor.get_executor_instance os ctypes_create cli_create
                                                     suggested_path) in
    executor self = ex_None /\
    forall provider video_path,
      executor provider = ex_None \/ executor provider = ex_False ->
      fst (accepts VIDEO_EXTENSIONS provider video_path) = VBool false /\
      truthy (fst (accepts VIDEO_EXTENSIONS provider video_path)) = false /\
      executor (snd (accepts VIDEO_EXTENSIONS provider video_path)) = ex_False.
Proof.
  intros VIDEO_EXTENSIONS os ctypes_create cli_create suggested_path H self.
  subst self. rewrite H. split; [reflexivity|].
  intros provider video_path [E | E]; unfold accepts; rewrite E; cbn; rewrite ?E;
    repeat split.
Qed.

(** * The theorems at concrete inputs *)

Lemma audio_channels_ignored_case_insensitive_witness :
  AudioChannels.handle {| Property.name := "Channels"; Property.description := "" |}
                       (VStr "Object Based") Context.empty
    = (Return VNone, Context.empty) /\
  AudioChannels.handle {| Property.name := "Channels"; Property.description := "" |}
                       (VStr "OBJECT BASED") Context.empty
    = (Return VNone, Context.empty).
Proof.
  split; apply audio_channels_ignored_case_insensitive; reflexivity.
Defined.

Lemma handle_identity_on_typed_input_witness :
  Basic.handle Sample.track_id (VInt 3) Context.empty = (Return (VInt 3), Context.empty) /\
  AudioChannels.handle {| Property.name := "Channels"; Property.description := "" |}
                       (VInt 6) Context.empty
    = (Return (VInt 6), Context.empty).
Proof.
  split.
  - apply (proj1 handle_identity_on_typed_input). reflexivity.
  - apply (proj2 handle_identity_on_typed_input). reflexivity.
Defined.

Lemma basic_coercion_failure_witness :
  Basic.handle {| Basic.property := {| Property.name := "ID"; Property.description := "" |};
                  Basic.data_type := type_of (fun _ => None) (fun _ => "") Int;
                  Basic.allow_fallback := false |} (VStr "N/A") Context.empty
    = (Return VNone,
       {| warnings := [{| reporter := "ID"; reported := VStr "N/A" |}];
          debug_data := None |}) /\
  Basic.handle {| Basic.property := {| Property.name := "ID"; Property.description := "" |};
                  Basic.data_type := type_of (fun _ => None) (fun _ => "") Int;
                  Basic.allow_fallback := true |} (VStr "N/A") Context.empty
    = (Return VNone, Context.empty).
Proof.
  split.
  - apply (basic_coercion_failure (fun _ => None) (fun _ => "") Int
             {| Property.name := "ID"; Property.description := "" |} false "N/A"
             Context.empty).
    reflexivity.
  - apply (basic_coercion_failure (fun _ => None) (fun _ => "") Int
             {| Property.name := "ID"; Property.description := "" |} true "N/A"
             Context.empty).
    reflexivity.
Defined.

(** C3, as first stated, fails: with [allow_fallback] the track-number
    property given ["N/A"] returns no value, not the raw string. *)
Lemma basic_fallback_returns_no_value :
  construct (Basic.data_type Sample.track_id) (VStr "N/A") = Raise ValueError /\
  Basic.allow_fallback Sample.track_id = true /\
  Basic.handle Sample.track_id (VStr "N/A") Context.empty = (Return VNone, Context.empty) /\
  ~ (forall (self : Basic.t) (s : string) (ctx : context),
        construct (Basic.data_type self) (VStr s) = Raise ValueError ->
        Basic.allow_fallback self = true ->
        Basic.handle self (VStr s) ctx = (Return (VStr s), ctx)).
Proof.
  repeat split; try reflexivity.
  intros H. specialize (H Sample.track_id "N/A" Context.empty eq_refl eq_refl).
  discriminate H.
Qed.

Lemma describe_empty_track_list_is_malformed_witness :
  tracks_of (Sample.probe_output []) = Return (VList []) /\
  Sample.describe [] Context.empty =
    (Raise MalformedFileError,
     {| warnings := []; debug_data := Some (Sample.probe_output []) |}).
Proof.
  split; [reflexivity|].
  apply (describe_empty_track_list_is_malformed
           "5.1.0" (fun _ _ => Return (Sample.probe_output []))
           (Schema.describe_tracks Schema.mediainfo)
           Sample.provider Sample.libmediainfo "sample.mkv" Context.empty
           (Sample.probe_output [])); reflexivity.
Defined.

(** The schema-driven [_describe_tracks] does not read the debug data. *)

Lemma ignores_ret : forall (A : Type) (a : A), ignores_debug_data (ret a).
Proof. intros A a data ctx. reflexivity. Qed.

Lemma ignores_raise : forall (A : Type) e, ignores_debug_data (@raise A e).
Proof. intros A e data ctx. reflexivity. Qed.

Lemma ignores_lift : forall (A : Type) (o : outcome A), ignores_debug_data (lift o).
Proof. intros A o data ctx. reflexivity. Qed.

Lemma ignores_bind : forall (A B : Type) (m : M A) (k : A -> M B),
  ignores_debug_data m -> (forall a, ignores_debug_data (k a)) ->
  ignores_debug_data (bind m k).
Proof.
  intros A B m k Hm Hk data ctx. unfold bind. rewrite Hm.
  destruct (m ctx) as [[a|e] c]; cbn [fst snd]; [apply Hk | reflexivity].
Qed.

Lemma ignores_report : forall self v, ignores_debug_data (Property.report self v).
Proof. intros self v data ctx. reflexivity. Qed.

Lemma ignores_handle : forall h v, ignores_debug_data (Schema.handle h v).
Proof.
  intros [p|b|p] v; cbn [Schema.handle].
  - apply ignores_ret.
  - unfold Basic.handle.
    destruct (isinstance (Basic.data_type b) v); [apply ignores_ret|].
    destruct (construct (Basic.data_type b) v) as [x|e]; [apply ignores_ret|].
    destruct e; try apply ignores_raise.
    destruct (negb (Basic.allow_fallback b)); [|apply ignores_ret].
    apply ignores_bind; [apply ignores_report | intros; apply ignores_ret].
  - unfold AudioChannels.handle.
    destruct (isinstance py_int v); [apply ignores_ret|].
    destruct v; try apply ignores_raise.
    destruct (negb (AudioChannels.is_ignored (lower s))); [|apply ignores_ret].
    destruct (int_of_str (lower s)); [apply ignores_ret|].
    apply ignores_bind; [apply ignores_report | intros; apply ignores_ret].
Qed.

Lemma ignores_describe_track : forall schema track,
  ignores_debug_data (Schema.describe_track schema track).
Proof.
  induction schema as [|[output_name h] rest IH]; intros track;
    cbn [Schema.describe_track]; [apply ignores_ret|].
  apply ignores_bind; [apply ignores_lift|]. intros raw.
  apply ignores_bind.
  - destruct raw; try apply ignores_handle. apply ignores_ret.
  - intros v. apply ignores_bind; [apply IH | intros; apply ignores_ret].
Qed.

Lemma ignores_describe_each : forall schema tracks,
  ignores_debug_data (Schema.describe_each schema tracks).
Proof.
  induction tracks as [|track rest IH]; cbn [Schema.describe_each]; [apply ignores_ret|].
  apply ignores_bind; [apply ignores_describe_track|]. intros normalized.
  apply ignores_bind; [apply IH | intros; apply ignores_ret].
Qed.

Lemma ignores_describe_tracks : forall schema video_path g vs aus ss,
  ignores_debug_data (Schema.describe_tracks schema video_path g vs aus ss).
Proof.
  intros. unfold Schema.describe_tracks.
  apply ignores_bind; [apply ignores_describe_track|]. intros ?.
  apply ignores_bind; [apply ignores_describe_each|]. intros ?.
  apply ignores_bind; [apply ignores_describe_each|]. intros ?.
  apply ignores_bind; [apply ignores_describe_each|]. intros ?.
  apply ignores_ret.
Qed.

Lemma describe_drops_unknown_tracks_witness :
  unknown_type Sample.menu = true /\
  fst (Sample.describe [Sample.general; Sample.menu; Sample.video; Sample.audio]
                       Context.empty) =
  fst (Sample.describe [Sample.general; Sample.video; Sample.audio] Context.empty) /\
  warnings (snd (Sample.describe [Sample.general; Sample.menu; Sample.video; Sample.audio]
                                 Context.empty)) =
  warnings (snd (Sample.describe [Sample.general; Sample.video; Sample.audio]
                                 Context.empty)).
Proof.
  split; [reflexivity|].
  exact (proj2 (proj2 (proj2
           (describe_drops_unknown_tracks
              "5.1.0"
              (fun _ _ =>
                 Return (Sample.probe_output
                           [Sample.general; Sample.menu; Sample.video; Sample.audio]))
              (fun _ _ =>
                 Return (Sample.probe_output [Sample.general; Sample.video; Sample.audio]))
              (Schema.describe_tracks Schema.mediainfo)
              Sample.provider Sample.libmediainfo "sample.mkv" Context.empty
              (Sample.probe_output [Sample.general; Sample.menu; Sample.video; Sample.audio])
              (Sample.probe_output [Sample.general; Sample.video; Sample.audio])
              [Sample.general] Sample.menu [Sample.video; Sample.audio]
              eq_refl eq_refl eq_refl eq_refl eq_refl eq_refl
              ltac:(discriminate)
              (ignores_describe_tracks Schema.mediainfo "sample.mkv"))))).
Defined.

(** C5, as first stated, fails: a list that holds only a track of unknown
    type is not empty, so [_describe_tracks] is called and [describe]
    returns a result, where the list without the track, the empty list,
    has [describe] raise [MalformedFileError]. *)
Lemma describe_unknown_only_track_differs_from_empty :
  unknown_type Sample.menu = true /\
  fst (Sample.describe [Sample.menu] Context.empty) =
    Return
      (VDict
         [("general", VDict []); ("video", VList []); ("audio", VList []);
          ("subtitle", VList []);
          ("provider",
           VDict [("name", VStr "mediainfo");
                  ("version", VDict [("pymediainfo", VStr "5.1.0");
                                     ("libmediainfo.so.0", VStr "v21.9")])])]) /\
  fst (Sample.describe [] Context.empty) = Raise MalformedFileError /\
  ~ (forall (pre : list RawTrack) unknown post,
        unknown_type unknown = true ->
        fst (Sample.describe (pre ++ unknown :: post) Context.empty) =
        fst (Sample.describe (pre ++ post) Context.empty)).
Proof.
  split; [reflexivity|]. split; [reflexivity|]. split; [reflexivity|].
  intros H. specialize (H [] Sample.menu [] eq_refl). discriminate H.
Qed.

Lemma describe_uses_first_general_track_witness :
  has_type "General" Sample.general = true /\
  has_type "General" Sample.second_general = true /\
  Sample.describe [Sample.video; Sample.general; Sample.second_general] Context.empty =
    (result <- Schema.describe_tracks Schema.mediainfo "sample.mkv"
                 (VDict Sample.general) [VDict Sample.video] [] [] ;;
     MediaInfoProvider.with_provider "5.1.0" Sample.provider result)
      {| warnings := [];
         debug_data :=
           Some (Sample.probe_output
                   [Sample.video; Sample.general; Sample.second_general]) |}.
Proof.
  split; [reflexivity|]. split; [reflexivity|].
  exact (proj2
           (describe_uses_first_general_track
              "5.1.0"
              (fun _ _ =>
                 Return (Sample.probe_output
                           [Sample.video; Sample.general; Sample.second_general]))
              (Schema.describe_tracks Schema.mediainfo)
              Sample.provider Sample.libmediainfo "sample.mkv" Context.empty
              _ [Sample.video] Sample.general [Sample.second_general]
              eq_refl eq_refl eq_refl eq_refl eq_refl)).
Defined.

Lemma describe_result_has_provider_block_witness :
  exists r ctx' kv,
    Sample.describe [Sample.general; Sample.video] Context.empty = (Return r, ctx') /\
    r = VDict kv /\
    dict_get kv "provider" =
      Some (VDict [("name", VStr "mediainfo");
                   ("version", VDict [("pymediainfo", VStr "5.1.0");
                                      ("libmediainfo.so.0", VStr "v21.9")])]).
Proof.
  eexists _, _.
  assert (H : Sample.describe [Sample.general; Sample.video] Context.empty
              = (Return _, _)) by (vm_compute; reflexivity).
  destruct (describe_result_has_provider_block
              "5.1.0"
              (fun _ _ => Return (Sample.probe_output [Sample.general; Sample.video]))
              (Schema.describe_tracks Schema.mediainfo)
              Sample.provider "sample.mkv" Context.empty _ _ H)
    as (kv & e & Hr & Hp & _ & _).
  exists kv. split; [exact H|]. split; [exact Hr | exact Hp].
Defined.

Lemma accepts_nothing_without_executor_witness :
  MediaInfoExecutor.get_executor_instance
    "unix" (fun _ _ => None) (fun _ _ => None) None = None /\
  fst (accepts [".mkv"; ".mp4"]
               (init (MediaInfoExecutor.get_executor_instance
                        "unix" (fun _ _ => None) (fun _ _ => None) None))
               "movie.mkv") = VBool false.
Proof.
  split; [reflexivity|].
  apply (proj2 (accepts_nothing_without_executor
                  [".mkv"; ".mp4"] "unix" (fun _ _ => None) (fun _ _ => None) None
                  eq_refl)).
  left. reflexivity.
Defined.

(** ** The provider run on the sample *)

(** One General, one Menu, one Video and one Audio track whose channel
    count is not a number: the Menu track leaves no trace in the result,
    the channel count is omitted and reported. *)
Example describe_sample :
  Sample.describe [Sample.general; Sample.menu; Sample.video; Sample.audio] Context.empty =
  (Return
     (VDict
        [("general", VDict [("title", VStr "Sample")]);
         ("video", VList [VDict [("id", VInt 1); ("media_type", VStr "video/H264")]]);
         ("audio", VList [VDict [("id", VInt 2)]]);
         ("subtitle", VList []);
         ("provider",
          VDict [("name", VStr "mediainfo");
                 ("version", VDict [("pymediainfo", VStr "5.1.0");
                                    ("libmediainfo.so.0", VStr "v21.9")])])]),
   {| warnings := [{| reporter := "Channels"; reported := VStr "six" |}];
      debug_data :=
        Some (Sample.probe_output
                [Sample.general; Sample.menu; Sample.video; Sample.audio]) |}).
Proof. reflexivity. Qed.

(** A track list that holds only a track of unknown type is not empty:
    [_describe_tracks] is called, with no track in any group, and what it
    returns decides whether [describe] raises. *)
Example describe_only_unknown_track :
  fst (Sample.describe [Sample.menu] Context.empty) =
  Return
    (VDict
       [("general", VDict []); ("video", VList []); ("audio", VList []);
        ("subtitle", VList []);
        ("provider",
         VDict [("name", VStr "mediainfo");
                ("version", VDict [("pymediainfo", VStr "5.1.0");
                                   ("libmediainfo.so.0", VStr "v21.9")])])]).
Proof. reflexivity. Qed.

(** A probe output without the ['media'] key has the default, empty track
    list. *)
Example describe_without_media_key :
  tracks_of (VDict [("creatingLibrary", VStr "MediaInfoLib")]) = Return (VList []) /\
  fst (MediaInfoProvider.describe
         "5.1.0" (fun _ _ => Return (VDict [("creatingLibrary", VStr "MediaInfoLib")]))
         (Schema.describe_tracks Schema.mediainfo) Sample.provider "sample.mkv"
         Context.empty)
  = Raise MalformedFileError.
Proof. split; reflexivity. Qed.

(** With an executor, [accepts] looks at the extension, in any case. *)
Example accepts_sample :
  fst (accepts [".mkv"; ".mp4"] Sample.provider "Movie.MKV") = VBool true /\
  fst (accepts [".mkv"; ".mp4"] Sample.provider "notes.txt") = VBool false.
Proof. split; reflexivity. Qed.

(** Without an executor [describe] fails on the attribute access. *)
Example describe_without_executor :
  MediaInfoProvider.describe
    "5.1.0" (fun _ _ => Return (Sample.probe_output []))
    (Schema.describe_tracks Schema.mediainfo) (init None) "sample.mkv" Context.empty
  = (Raise AttributeError, Context.empty).
Proof. reflexivity. Qed.

(** * Further properties of the handlers *)

(** ** Lowercasing and [int] *)

Lemma lower_chars : forall s,
  list_ascii_of_string (lower s) = map lower_ascii (list_ascii_of_string s).
Proof.
  induction s as [|c s IH]; simpl; [reflexivity | now rewrite IH].
Qed.

Ltac by_cases_on_ascii c :=
  destruct c as [[] [] [] [] [] [] [] []]; vm_compute; reflexivity.

Lemma is_space_lower : forall c, is_space (lower_ascii c) = is_space c.
Proof. intros c. by_cases_on_ascii c. Qed.

Lemma digit_value_lower : forall c, digit_value (lower_ascii c) = digit_value c.
Proof. intros c. by_cases_on_ascii c. Qed.

Lemma eqb_underscore_lower : forall c,
  Ascii.eqb (lower_ascii c) "_"%char = Ascii.eqb c "_"%char.
Proof. intros c. by_cases_on_ascii c. Qed.

Lemma eqb_plus_lower : forall c,
  Ascii.eqb (lower_ascii c) "+"%char = Ascii.eqb c "+"%char.
Proof. intros c. by_cases_on_ascii c. Qed.

Lemma eqb_minus_lower : forall c,
  Ascii.eqb (lower_ascii c) "-"%char = Ascii.eqb c "-"%char.
Proof. intros c. by_cases_on_ascii c. Qed.

Lemma skip_spaces_lower : forall l,
  skip_spaces (map lower_ascii l) = map lower_ascii (skip_spaces l).
Proof.
  induction l as [|c l IH]; [reflexivity|].
  simpl. rewrite is_space_lower. destruct (is_space c); [exact IH | reflexivity].
Qed.

Lemma scan_digits_lower : forall l prev acc count,
  scan_digits prev acc count (map lower_ascii l) =
  match scan_digits prev acc count l with
  | Some (n, k, rest) => Some (n, k, map lower_ascii rest)
  | None => None
  end.
Proof.
  induction l as [|c l IH]; intros prev acc count.
  - simpl. destruct prev; reflexivity.
  - simpl. rewrite digit_value_lower, eqb_underscore_lower.
    destruct (digit_value c); [apply IH|].
    destruct (Ascii.eqb c "_"%char).
    + destruct prev; [reflexivity | apply IH].
    + destruct prev; reflexivity.
Qed.

(** The digits, the sign, the underscore and the whitespace have no case:
    [int] reads a lowercased string as it reads the string. *)
Lemma int_of_str_lower : forall s, int_of_str (lower s) = int_of_str s.
Proof.
  intros s. unfold int_of_str. rewrite lower_chars, skip_spaces_lower.
  destruct (skip_spaces (list_ascii_of_string s)) as [|c l]; [reflexivity|].
  cbn [map]. rewrite eqb_plus_lower, eqb_minus_lower.
  assert (body : forall (negative : bool) (l0 : list ascii),
    match map lower_ascii l0 with
    | c0 :: _ =>
        if Ascii.eqb c0 "_"%char then None
        else match scan_digits false 0 0 (map lower_ascii l0) with
             | Some (n, S k, rest) =>
                 if (max_str_digits <? S k)%nat then None
                 else
                   match skip_spaces rest with
                   | [] => Some (if negative then - n else n)
                   | _ :: _ => None
                   end
             | _ => None
             end
    | [] => None
    end =
    match l0 with
    | c0 :: _ =>
        if Ascii.eqb c0 "_"%char then None
        else match scan_digits false 0 0 l0 with
             | Some (n, S k, rest) =>
                 if (max_str_digits <? S k)%nat then None
                 else
                   match skip_spaces rest with
                   | [] => Some (if negative then - n else n)
                   | _ :: _ => None
                   end
             | _ => None
             end
    | [] => None
    end).
  { intros negative l0. destruct l0 as [|c0 l0]; [reflexivity|].
    cbn [map]. rewrite eqb_underscore_lower.
    destruct (Ascii.eqb c0 "_"%char); [reflexivity|].
    change (lower_ascii c0 :: map lower_ascii l0) with (map lower_ascii (c0 :: l0)).
    rewrite scan_digits_lower.
    destruct (scan_digits false 0 0 (c0 :: l0)) as [[[n k] rest]|]; [|reflexivity].
    destruct k; [reflexivity|].
    destruct (max_str_digits <? S k)%nat; [reflexivity|].
    rewrite skip_spaces_lower. destruct (skip_spaces rest); reflexivity. }
  destruct (Ascii.eqb c "+"%char); [exact (body false l)|].
  destruct (Ascii.eqb c "-"%char); [exact (body true l)|].
  exact (body false (c :: l)).
Qed.

(** X1. [Basic.handle] raises exactly when the value is no instance of the
    declared type and the call of the type raises something other than
    [ValueError]; that exception comes out unchanged, with or without
    [allow_fallback], and the context is left as it was.  [ValueError]
    itself never comes out. *)
Theorem basic_raises_only_what_the_type_raises :
  forall (self : Basic.t) (v : value) (ctx : context) (e : exn) (ctx' : context),
    Basic.handle self v ctx = (Raise e, ctx') <->
    (isinstance (Basic.data_type self) v = false /\
     construct (Basic.data_type self) v = Raise e /\
     e <> ValueError /\ ctx' = ctx).
Proof.
  intros self v ctx e ctx'. unfold Basic.handle. split.
  - destruct (isinstance (Basic.data_type self) v); [discriminate|].
    destruct (construct (Basic.data_type self) v) as [x|e0]; [discriminate|].
    destruct e0; try (intros H; injection H as <- <-; repeat split; discriminate).
    destruct (Basic.allow_fallback self); discriminate.
  - intros (Hi & Hc & Hne & ->). rewrite Hi, Hc.
    destruct e; try reflexivity. contradiction.
Qed.

(** What a primitive type constructs is an instance of it. *)
Lemma primitive_constructs_instance : forall fs sv (p : primitive) v x,
  construct (type_of fs sv p) v = Return x ->
  isinstance (type_of fs sv p) x = true.
Proof.
  intros fs sv p v x H. destruct p; simpl in *.
  - destruct v; try discriminate; try (injection H as <-; reflexivity).
    + destruct (int_of_float f); [injection H as <-; reflexivity | discriminate].
    + destruct (int_of_str s); [injection H as <-; reflexivity | discriminate].
  - destruct v; try discriminate; try (injection H as <-; reflexivity).
    + destruct (float_of_int (Z.b2z b)); [injection H as <-; reflexivity | discriminate].
    + destruct (float_of_int z); [injection H as <-; reflexivity | discriminate].
    + destruct (fs s); [injection H as <-; reflexivity | discriminate].
  - injection H as <-. reflexivity.
  - injection H as <-. reflexivity.
Qed.

(** X2. For a [Basic] property declared with a primitive type and any raw
    value: a returned value is [None] or an instance of the declared type,
    and handling a returned value again gives it back without a warning. *)
Theorem basic_result_is_typed_and_stable :
  forall fs sv (p : primitive) (prop : Property.t) (fallback : bool)
         (v r : value) (ctx ctx' : context),
    Basic.handle {| Basic.property := prop;
                    Basic.data_type := type_of fs sv p;
                    Basic.allow_fallback := fallback |} v ctx = (Return r, ctx') ->
    (r = VNone \/ isinstance (type_of fs sv p) r = true) /\
    (r <> VNone ->
     Basic.handle {| Basic.property := prop;
                     Basic.data_type := type_of fs sv p;
                     Basic.allow_fallback := fallback |} r ctx' = (Return r, ctx')).
Proof.
  intros fs sv p prop fallback v r ctx ctx' H.
  assert (Hr : r = VNone \/ isinstance (type_of fs sv p) r = true).
  { unfold Basic.handle in H. cbn [Basic.data_type Basic.allow_fallback Basic.property] in H.
    destruct (isinstance (type_of fs sv p) v) eqn:Hi.
    - injection H as <- <-. now right.
    - destruct (construct (type_of fs sv p) v) as [x|e] eqn:Hc.
      + injection H as <- <-. right. eapply primitive_constructs_instance; eauto.
      + destruct e; try discriminate.
        destruct fallback; injection H as <- _; now left. }
  split; [exact Hr|].
  intros Hne. destruct Hr as [-> | Hr]; [contradiction|].
  now apply basic_handle_instance.
Qed.

(** X3. Either handler, on any raw value and whatever the outcome, leaves
    the debug data and the warnings recorded so far alone; it adds at most
    one warning, and only together with returning no value, and the
    warning carries the raw value as it was given. *)
Theorem handlers_only_append_one_warning :
  (forall (self : Basic.t) (v : value) (ctx : context),
      debug_data (snd (Basic.handle self v ctx)) = debug_data ctx /\
      (snd (Basic.handle self v ctx) = ctx \/
       Basic.handle self v ctx =
         (Return VNone,
          record_warning ctx {| reporter := Property.name (Basic.property self);
                                reported := v |}))) /\
  (forall (self : Property.t) (v : value) (ctx : context),
      debug_data (snd (AudioChannels.handle self v ctx)) = debug_data ctx /\
      (snd (AudioChannels.handle self v ctx) = ctx \/
       AudioChannels.handle self v ctx =
         (Return VNone,
          record_warning ctx {| reporter := Property.name self; reported := v |}))).
Proof.
  split.
  - intros self v ctx. unfold Basic.handle.
    destruct (isinstance (Basic.data_type self) v); [simpl; auto|].
    destruct (construct (Basic.data_type self) v) as [x|e]; [simpl; auto|].
    destruct e; try (simpl; auto).
    destruct (Basic.allow_fallback self); simpl; auto.
  - intros self v ctx. unfold AudioChannels.handle.
    destruct (isinstance py_int v); [simpl; auto|].
    destruct v; try (simpl; auto).
    destruct (negb (AudioChannels.is_ignored (lower s))); [|simpl; auto].
    destruct (int_of_str (lower s)); simpl; auto.
Qed.

(** X4. On an [int] and on a string that is not an ignored token,
    [AudioChannels.handle] does what a [Basic] property of type [int]
    without fallback does: lowercasing changes nothing for [int]. *)
Theorem audio_channels_agrees_with_basic_int :
  forall (self : Property.t) (v : value) (ctx : context),
    (isinstance py_int v = true \/
     exists s, v = VStr s /\ AudioChannels.is_ignored (lower s) = false) ->
    AudioChannels.handle self v ctx =
    Basic.handle {| Basic.property := self;
                    Basic.data_type := py_int;
                    Basic.allow_fallback := false |} v ctx.
Proof.
  intros self v ctx [Hi | (s & -> & Hs)].
  - rewrite basic_handle_instance by exact Hi.
    unfold AudioChannels.handle. now rewrite Hi.
  - rewrite audio_channels_on_str, Hs, int_of_str_lower.
    unfold Basic.handle. simpl. destruct (int_of_str s); reflexivity.
Qed.

(** X5. [AudioChannels.handle] raises exactly on the values that are
    neither [int] nor [str] ([None], a float, a list, a dict); the
    exception is [AttributeError] and nothing is recorded. *)
Theorem audio_channels_raises_on_other_types :
  forall (self : Property.t) (v : value) (ctx : context) (e : exn) (ctx' : context),
    AudioChannels.handle self v ctx = (Raise e, ctx') <->
    (isinstance py_int v = false /\ (forall s, v <> VStr s) /\
     e = AttributeError /\ ctx' = ctx).
Proof.
  intros self v ctx e ctx'. split.
  - destruct v; try (rewrite audio_channels_on_str);
      try (intros H; injection H as <- <-; repeat split; (reflexivity || discriminate));
      try discriminate.
    destruct (AudioChannels.is_ignored (lower s)); [discriminate|].
    destruct (int_of_str (lower s)); discriminate.
  - intros (Hi & Hs & -> & ->). destruct v; try discriminate; try reflexivity.
    now elim (Hs s).
Qed.

(** * Further properties of the provider *)

(** ** The classification loop *)

Lemma tracks_of_type_length : forall ty tracks,
  List.length (tracks_of_type ty tracks) = List.length (filter (has_type ty) tracks).
Proof. intros. unfold tracks_of_type. apply length_map. Qed.

(** A raw track has at most one of the four types. *)
Lemma one_type_at_most : forall (track : RawTrack),
  (List.length (filter (fun ty => has_type ty track) ["General"; "Video"; "Audio"; "Text"])
   + (if unknown_type track then 1 else 0) = 1)%nat.
Proof.
  intros track. unfold unknown_type. cbn [filter]. rewrite !has_type_eq_str.
  set (ty := match dict_get track "@type" with Some v => v | None => VNone end).
  destruct (eq_str ty "General") eqn:EG.
  { rewrite (eq_str_exclusive ty "General" "Video"),
            (eq_str_exclusive ty "General" "Audio"),
            (eq_str_exclusive ty "General" "Text") by (assumption || reflexivity).
    reflexivity. }
  destruct (eq_str ty "Video") eqn:EV.
  { rewrite (eq_str_exclusive ty "Video" "Audio"),
            (eq_str_exclusive ty "Video" "Text") by (assumption || reflexivity).
    reflexivity. }
  destruct (eq_str ty "Audio") eqn:EA.
  { rewrite (eq_str_exclusive ty "Audio" "Text") by (assumption || reflexivity).
    reflexivity. }
  destruct (eq_str ty "Text"); reflexivity.
Qed.

(** X6. The loop of [describe] loses and duplicates nothing: on raw tracks
    it returns four lists whose lengths, together with the number of tracks
    of unknown type, add up to the number of tracks, and every track it put
    in a list answers the list's type to [track.get('@type')]. *)
Theorem classify_loses_and_duplicates_nothing :
  forall (tracks : list RawTrack),
    exists g,
      classify (map VDict tracks) no_groups = Return g /\
      (List.length (general_tracks g) + List.length (video_tracks g)
       + List.length (audio_tracks g) + List.length (subtitle_tracks g)
       + List.length (filter unknown_type tracks) = List.length tracks)%nat /\
      Forall (fun t => get t "@type" VNone = Return (VStr "General")) (general_tracks g) /\
      Forall (fun t => get t "@type" VNone = Return (VStr "Video")) (video_tracks g) /\
      Forall (fun t => get t "@type" VNone = Return (VStr "Audio")) (audio_tracks g) /\
      Forall (fun t => get t "@type" VNone = Return (VStr "Text")) (subtitle_tracks g).
Proof.
  intros tracks. exists (partition_by_type tracks).
  split; [apply classify_partition|]. split.
  - unfold partition_by_type.
    cbn [general_tracks video_tracks audio_tracks subtitle_tracks].
    rewrite !tracks_of_type_length.
    induction tracks as [|track rest IH]; [reflexivity|].
    pose proof (one_type_at_most track) as H1. cbn [filter] in H1 |- *.
    destruct (has_type "General" track), (has_type "Video" track),
             (has_type "Audio" track), (has_type "Text" track),
             (unknown_type track); cbn [List.length] in *; lia.
  - assert (typed : forall ty, Forall (fun t => get t "@type" VNone = Return (VStr ty))
                                      (tracks_of_type ty tracks)).
    { intros ty. unfold tracks_of_type. apply Forall_forall. intros t Ht.
      apply in_map_iff in Ht. destruct Ht as (track & <- & Hin).
      apply filter_In in Hin. destruct Hin as [_ Hty].
      rewrite get_type. unfold has_type in Hty.
      destruct (dict_get track "@type") as [v|]; [|discriminate].
      destruct v; try discriminate. simpl in Hty. apply String.eqb_eq in Hty.
      now subst. }
    repeat split; apply typed.
Qed.

(** The loop on any elements: it returns when all of them are
    dictionaries, and raises [AttributeError] otherwise. *)
Lemma classify_raises_on_non_dict : forall elements g,
  if forallb is_dict elements
  then exists g', classify elements g = Return g'
  else classify elements g = Raise AttributeError.
Proof.
  induction elements as [|track rest IH]; intros g; [simpl; eauto|].
  cbn [forallb]. destruct track; cbn [is_dict andb classify get]; try reflexivity.
  destruct (eq_str _ "General"); [apply IH|].
  destruct (eq_str _ "Video"); [apply IH|].
  destruct (eq_str _ "Audio"); [apply IH|].
  destruct (eq_str _ "Text"); apply IH.
Qed.

Lemma dict_get_set_other : forall kv key k v,
  k <> key -> dict_get (dict_set kv key v) k = dict_get kv k.
Proof.
  induction kv as [|[k0 w] rest IH]; intros key k v Hne; simpl.
  - destruct (String.eqb key k) eqn:E; [|reflexivity].
    apply String.eqb_eq in E. congruence.
  - destruct (String.eqb k0 key) eqn:E; simpl.
    + apply String.eqb_eq in E. subst k0.
      destruct (String.eqb key k) eqn:E'; [|reflexivity].
      apply String.eqb_eq in E'. congruence.
    + destruct (String.eqb k0 k); [reflexivity | now apply IH].
Qed.

(** ** [describe] on other probe outputs *)

Section DescribeEdges.

Variable pymediainfo_version : string.
Variable extract_info : MediaInfoExecutor.t -> string -> outcome value.
Variable _describe_tracks :
  string -> value -> list value -> list value -> list value -> M value.

Local Notation describe :=
  (MediaInfoProvider.describe pymediainfo_version extract_info _describe_tracks).
Local Notation version := (MediaInfoProvider.version pymediainfo_version).
Local Notation with_debug_data data ctx := (snd (set_debug_data data ctx)).
Local Notation provider_block self :=
  (VDict [("name", VStr "mediainfo"); ("version", version self)]).

(** [describe] up to the loop, when the loop or the iteration raises. *)
Lemma describe_loop_raises : forall self e video_path ctx data tracks err,
  executor self = ex_Some e ->
  extract_info e video_path = Return data ->
  tracks_of data = Return tracks ->
  truthy tracks = true ->
  match iter tracks with
  | Return elements => classify elements no_groups
  | Raise e' => Raise e'
  end = Raise err ->
  describe self video_path ctx = (Raise err, with_debug_data data ctx).
Proof.
  intros self e video_path ctx data tracks err He Hx Ht Htrue Hloop.
  unfold MediaInfoProvider.describe, Context.bind, Context.lift.
  rewrite He, Hx. cbn [set_debug_data snd]. rewrite Ht, Htrue.
  destruct (iter tracks) as [elements|e']; [|now injection Hloop as ->].
  now rewrite Hloop.
Qed.

(** X7. When the track list holds an element that is not a dictionary (a
    string, a number, [null], a nested list), [describe] raises
    [AttributeError]: nothing is normalized, whatever the other tracks
    are, and the context holds the debug data only. *)
Theorem describe_non_dict_track_raises :
  forall self e video_path ctx data elements,
    executor self = ex_Some e ->
    extract_info e video_path = Return data ->
    tracks_of data = Return (VList elements) ->
    forallb is_dict elements = false ->
    describe self video_path ctx = (Raise AttributeError, with_debug_data data ctx).
Proof.
  intros self e video_path ctx data elements He Hx Ht Hnd.
  apply (describe_loop_raises self e video_path ctx data (VList elements)); auto.
  - destruct elements; [discriminate | reflexivity].
  - cbn [iter]. pose proof (classify_raises_on_non_dict elements no_groups) as H.
    now rewrite Hnd in H.
Qed.

(** X8. When ['track'] holds a true value that is not a list, [describe]
    raises: [AttributeError] for a single track object or a string, whose
    iteration yields strings, and [TypeError] for a number or [true],
    which cannot be iterated. *)
Theorem describe_track_value_not_a_list_raises :
  forall self e video_path ctx data tracks,
    executor self = ex_Some e ->
    extract_info e video_path = Return data ->
    tracks_of data = Return tracks ->
    truthy tracks = true ->
    (forall l, tracks <> VList l) ->
    describe self video_path ctx =
    (Raise match tracks with
           | VDict _ | VStr _ => AttributeError
           | _ => TypeError
           end, with_debug_data data ctx).
Proof.
  intros self e video_path ctx data tracks He Hx Ht Htrue Hnl.
  apply (describe_loop_raises self e video_path ctx data tracks); auto.
  destruct tracks; try reflexivity; try discriminate.
  - destruct s; [discriminate | reflexivity].
  - now elim (Hnl l).
  - destruct kv; [discriminate | reflexivity].
Qed.

(** X9. A probe output that is a dictionary without ['media'], or whose
    ['media'] is a dictionary without ['track'] or with a [null] track
    list, is treated like an empty track list: [describe] raises
    [MalformedFileError]. *)
Theorem describe_missing_keys_is_malformed :
  forall self e video_path ctx kv,
    executor self = ex_Some e ->
    extract_info e video_path = Return (VDict kv) ->
    (dict_get kv "media" = None \/
     exists media, dict_get kv "media" = Some (VDict media) /\
                   (dict_get media "track" = None \/
                    dict_get media "track" = Some VNone)) ->
    describe self video_path ctx =
    (Raise MalformedFileError, with_debug_data (VDict kv) ctx).
Proof.
  intros self e video_path ctx kv He Hx Hk.
  assert (Ht : exists tracks, tracks_of (VDict kv) = Return tracks /\ truthy tracks = false).
  { unfold tracks_of. cbn [get].
    destruct Hk as [Hm | (media & Hm & [Htr | Htr])]; rewrite Hm; cbn [get];
      try rewrite Htr; eauto. }
  destruct Ht as (tracks & Ht & Hf).
  unfold MediaInfoProvider.describe, Context.bind, Context.lift.
  rewrite He, Hx. cbn [set_debug_data snd]. rewrite Ht, Hf. reflexivity.
Qed.

(** [describe] on a non-empty list of raw tracks, by what
    [_describe_tracks] does. *)
Lemma describe_after_tracks : forall self e video_path ctx data (tracks : list RawTrack),
  executor self = ex_Some e ->
  extract_info e video_path = Return data ->
  tracks_of data = Return (VList (map VDict tracks)) ->
  tracks <> [] ->
  describe self video_path ctx =
  match _describe_tracks video_path
                         (general_track (partition_by_type tracks))
                         (tracks_of_type "Video" tracks)
                         (tracks_of_type "Audio" tracks)
                         (tracks_of_type "Text" tracks)
                         (with_debug_data data ctx) with
  | (Return result, ctx') =>
      MediaInfoProvider.with_provider pymediainfo_version self result ctx'
  | (Raise err, ctx') => (Raise err, ctx')
  end.
Proof.
  intros self e video_path ctx data tracks He Hx Ht Hne.
  unfold MediaInfoProvider.describe, Context.bind at 1 2 3, Context.lift.
  rewrite He, Hx. cbn [set_debug_data snd]. rewrite Ht.
  assert (Htrue : truthy (VList (map VDict tracks)) = true)
    by (destruct tracks; [congruence | reflexivity]).
  rewrite Htrue. unfold Context.bind at 2 3. cbn [iter].
  rewrite classify_partition. reflexivity.
Qed.

(** X10. When [_describe_tracks] returns a non-empty dictionary,
    [describe] returns it with the ['provider'] entry set: every other
    entry is as [_describe_tracks] left it, a ['provider'] entry it had is
    replaced, and the context is the one [_describe_tracks] left. *)
Theorem describe_keeps_normalized_fields :
  forall self e video_path ctx data (tracks : list RawTrack) kv ctx',
    executor self = ex_Some e ->
    extract_info e video_path = Return data ->
    tracks_of data = Return (VList (map VDict tracks)) ->
    tracks <> [] ->
    _describe_tracks video_path
                     (general_track (partition_by_type tracks))
                     (tracks_of_type "Video" tracks)
                     (tracks_of_type "Audio" tracks)
                     (tracks_of_type "Text" tracks)
                     (with_debug_data data ctx) = (Return (VDict kv), ctx') ->
    kv <> [] ->
    exists kv',
      describe self video_path ctx = (Return (VDict kv'), ctx') /\
      dict_get kv' "provider" = Some (provider_block self) /\
      (forall key, key <> "provider" -> dict_get kv' key = dict_get kv key) /\
      (List.length kv <= List.length kv' <= S (List.length kv))%nat.
Proof.
  intros self e video_path ctx data tracks kv ctx' He Hx Ht Hne Hd Hkv.
  exists (dict_set kv "provider" (provider_block self)).
  rewrite (describe_after_tracks self e video_path ctx data tracks He Hx Ht Hne), Hd.
  split.
  - unfold MediaInfoProvider.with_provider. destruct kv; [congruence | reflexivity].
  - split; [apply dict_get_set_same|]. split.
    + intros key Hk. now apply dict_get_set_other.
    + clear. induction kv as [|[k w] rest IH]; simpl; [lia|].
      destruct (String.eqb k "provider"); simpl; lia.
Qed.

(** X11. When [_describe_tracks] raises, returns a false value (an empty
    dictionary, [None]) or returns a true value that is not a dictionary,
    [describe] raises: the same exception, [MalformedFileError], or
    [TypeError]; the context is the one [_describe_tracks] left, warnings
    included. *)
Theorem describe_fails_after_normalization :
  forall self e video_path ctx data (tracks : list RawTrack) outcome ctx',
    executor self = ex_Some e ->
    extract_info e video_path = Return data ->
    tracks_of data = Return (VList (map VDict tracks)) ->
    tracks <> [] ->
    _describe_tracks video_path
                     (general_track (partition_by_type tracks))
                     (tracks_of_type "Video" tracks)
                     (tracks_of_type "Audio" tracks)
                     (tracks_of_type "Text" tracks)
                     (with_debug_data data ctx) = (outcome, ctx') ->
    match outcome with
    | Raise err => describe self video_path ctx = (Raise err, ctx')
    | Return result =>
        (truthy result = false ->
         describe self video_path ctx = (Raise MalformedFileError, ctx')) /\
        (truthy result = true -> is_dict result = false ->
         describe self video_path ctx = (Raise TypeError, ctx'))
    end.
Proof.
  intros self e video_path ctx data tracks outcome ctx' He Hx Ht Hne Hd.
  rewrite (describe_after_tracks self e video_path ctx data tracks He Hx Ht Hne), Hd.
  destruct outcome as [result|err]; [|reflexivity].
  unfold MediaInfoProvider.with_provider. split.
  - intros ->. reflexivity.
  - intros ->. destruct result; try discriminate; reflexivity.
Qed.

(** Without an executor, or when the probe fails, [describe] raises
    before it touches the context: [AttributeError] in the first case, the
    probe's exception in the second. *)
Theorem describe_fails_before_touching_context :
  forall self video_path ctx,
    (executor self = ex_None \/ executor self = ex_False ->
     describe self video_path ctx = (Raise AttributeError, ctx)) /\
    (forall e err,
        executor self = ex_Some e ->
        extract_info e video_path = Raise err ->
        describe self video_path ctx = (Raise err, ctx)).
Proof.
  intros self video_path ctx. split.
  - intros [H | H]; unfold MediaInfoProvider.describe, Context.bind;
      rewrite H; reflexivity.
  - intros e err He Hx. unfold MediaInfoProvider.describe, Context.bind, Context.lift.
    rewrite He, Hx. reflexivity.
Qed.

End DescribeEdges.

(** ** [accepts] and the lookup *)

Lemma length_append : forall s1 s2,
  String.length (s1 ++ s2)%string = (String.length s1 + String.length s2)%nat.
Proof. induction s1 as [|c s1 IH]; intros s2; simpl; [reflexivity | now rewrite IH]. Qed.

Lemma substring_whole : forall s, substring 0 (String.length s) s = s.
Proof. induction s as [|c s IH]; simpl; [reflexivity | now rewrite IH]. Qed.

Lemma substring_after_prefix : forall stem s m,
  substring (String.length stem) m (stem ++ s)%string = substring 0 m s.
Proof. induction stem as [|c stem IH]; intros s m; simpl; [reflexivity | apply IH]. Qed.

Lemma substring_split : forall s k,
  (k <= String.length s)%nat ->
  s = (substring 0 k s ++ substring k (String.length s - k) s)%string.
Proof.
  induction s as [|c s IH]; intros k Hk.
  - destruct k; reflexivity.
  - destruct k as [|k].
    + cbn [substring append]. rewrite Nat.sub_0_r. cbn [String.length].
      now rewrite substring_whole.
    + cbn [substring append String.length Nat.sub]. f_equal. apply IH.
      simpl in Hk. lia.
Qed.

(** [endswith1] is the suffix relation. *)
Lemma endswith1_iff : forall s suffix,
  endswith1 s suffix = true <-> exists stem, s = (stem ++ suffix)%string.
Proof.
  intros s suffix. unfold endswith1. split.
  - intros H. apply andb_true_iff in H. destruct H as [Hle Heq].
    apply Nat.leb_le in Hle. apply String.eqb_eq in Heq.
    exists (substring 0 (String.length s - String.length suffix) s).
    pose proof (substring_split s (String.length s - String.length suffix)) as H.
    replace (String.length s - (String.length s - String.length suffix))%nat
      with (String.length suffix) in H by lia.
    rewrite Heq in H. apply H. lia.
  - intros [stem ->]. rewrite length_append. apply andb_true_iff. split.
    + apply Nat.leb_le. lia.
    + replace (String.length stem + String.length suffix - String.length suffix)%nat
        with (String.length stem) by lia.
      rewrite substring_after_prefix, substring_whole. apply String.eqb_refl.
Qed.

(** X12. With an executor, [accepts] answers [True] or [False] and leaves
    the provider as it is; the answer is [True] exactly when the path, in
    lowercase, ends with one of [VIDEO_EXTENSIONS]. *)
Theorem accepts_by_lowercased_extension :
  forall VIDEO_EXTENSIONS self e video_path,
    executor self = ex_Some e ->
    snd (accepts VIDEO_EXTENSIONS self video_path) = self /\
    (exists b, fst (accepts VIDEO_EXTENSIONS self video_path) = VBool b) /\
    (fst (accepts VIDEO_EXTENSIONS self video_path) = VBool true <->
     exists extension stem,
       In extension VIDEO_EXTENSIONS /\ lower video_path = (stem ++ extension)%string).
Proof.
  intros VIDEO_EXTENSIONS self e video_path He.
  unfold accepts. rewrite He. cbn [executor fst snd]. rewrite He.
  split; [reflexivity|]. split; [eauto|].
  unfold endswith. split.
  - intros H. injection H as H. apply existsb_exists in H.
    destruct H as (extension & Hin & Hend). apply endswith1_iff in Hend.
    destruct Hend as [stem Hstem]. eauto.
  - intros (extension & stem & Hin & Hstem). f_equal. apply existsb_exists.
    exists extension. split; [exact Hin|]. apply endswith1_iff. eauto.
Qed.

(** X13. Calling [accepts] changes the provider at most once, from "no
    executor" to "no executor, warned": after any call the executor is not
    [None], a second call leaves the provider as the first left it, and an
    earlier call does not change what a later call answers. *)
Theorem accepts_settles_after_one_call :
  forall VIDEO_EXTENSIONS self first_path second_path,
    executor (snd (accepts VIDEO_EXTENSIONS self first_path)) <> ex_None /\
    snd (accepts VIDEO_EXTENSIONS (snd (accepts VIDEO_EXTENSIONS self first_path))
                 second_path)
      = snd (accepts VIDEO_EXTENSIONS self first_path) /\
    fst (accepts VIDEO_EXTENSIONS (snd (accepts VIDEO_EXTENSIONS self first_path))
                 second_path)
      = fst (accepts VIDEO_EXTENSIONS self second_path).
Proof.
  intros VIDEO_EXTENSIONS self first_path second_path.
  unfold accepts. destruct (executor self) eqn:E; cbn; rewrite ?E;
    repeat split; discriminate.
Qed.

(** The lookup prefers the library binding: an executor the ctypes
    class creates is returned whatever the command-line class would find,
    and the command-line class decides only when the ctypes class finds
    nothing. *)
Theorem get_executor_instance_prefers_ctypes :
  forall os ctypes_create cli_create suggested_path,
    (forall e, ctypes_create os suggested_path = Some e ->
               MediaInfoExecutor.get_executor_instance
                 os ctypes_create cli_create suggested_path = Some e) /\
    (ctypes_create os suggested_path = None ->
     MediaInfoExecutor.get_executor_instance os ctypes_create cli_create suggested_path
     = cli_create os suggested_path).
Proof.
  intros os ctypes_create cli_create suggested_path.
  unfold MediaInfoExecutor.get_executor_instance. split.
  - intros e ->. reflexivity.
  - intros ->. destruct (cli_create os suggested_path); reflexivity.
Qed.

(** * Properties of the executors *)

Import Numeral.

(** ** [int] on a run of digits *)

Lemma digit_value_is_digit : forall c,
  digit_value c =
  if MediaInfoExecutor.is_digit c then Some (Z.of_nat (nat_of_ascii c - 48)) else None.
Proof. reflexivity. Qed.

Lemma digit_not_special : forall c,
  MediaInfoExecutor.is_digit c = true ->
  is_space c = false /\ Ascii.eqb c "+"%char = false /\ Ascii.eqb c "-"%char = false /\
  Ascii.eqb c "_"%char = false /\ Ascii.eqb c "."%char = false /\
  MediaInfoExecutor.is_word c = true.
Proof.
  intros c. destruct c as [[] [] [] [] [] [] [] []]; vm_compute;
    intros H; try discriminate H; repeat split.
Qed.

Lemma scan_digits_digit_string : forall ds acc count,
  forallb MediaInfoExecutor.is_digit ds = true ->
  scan_digits false acc count ds =
  Some (decimal_value acc ds, (count + List.length ds)%nat, []).
Proof.
  induction ds as [|c ds IH]; intros acc count H.
  - simpl. now rewrite Nat.add_0_r.
  - cbn [forallb] in H. apply andb_true_iff in H. destruct H as [Hc Hds].
    cbn [scan_digits]. rewrite digit_value_is_digit, Hc.
    rewrite IH by exact Hds. cbn [List.length]. unfold decimal_value. cbn [fold_left].
    now rewrite Nat.add_succ_r.
Qed.

Lemma decimal_value_nonneg : forall ds acc, 0 <= acc -> 0 <= decimal_value acc ds.
Proof.
  unfold decimal_value. induction ds as [|c ds IH]; intros acc H; [exact H|].
  cbn [fold_left]. apply IH. lia.
Qed.

(** [int] reads a non-empty run of digits as its decimal value, unless
    the run is longer than the limit. *)
Lemma int_of_str_digit_string : forall ds,
  digit_string ds ->
  int_of_str (string_of_list_ascii ds) =
  if (List.length ds <=? max_str_digits)%nat then Some (decimal_value 0 ds) else None.
Proof.
  intros ds [Hne Hds]. unfold int_of_str.
  rewrite list_ascii_of_string_of_list_ascii.
  destruct ds as [|c ds]; [congruence|].
  pose proof Hds as Hall. cbn [forallb] in Hds. apply andb_true_iff in Hds.
  destruct Hds as [Hc _].
  destruct (digit_not_special c Hc) as (Hsp & Hplus & Hminus & Hus & _).
  cbn [skip_spaces]. rewrite Hsp, Hplus, Hminus, Hus.
  rewrite (scan_digits_digit_string (c :: ds) 0 0 Hall).
  cbn [Nat.add List.length].
  destruct (S (List.length ds) <=? max_str_digits)%nat eqn:Hle.
  - apply Nat.leb_le in Hle.
    assert (Hlt : (max_str_digits <? S (List.length ds))%nat = false)
      by (apply Nat.ltb_ge; exact Hle).
    now rewrite Hlt.
  - apply Nat.leb_gt in Hle.
    assert (Hlt : (max_str_digits <? S (List.length ds))%nat = true)
      by (apply Nat.ltb_lt; exact Hle).
    now rewrite Hlt.
Qed.

(** ** [str] of a number that is not negative *)

Lemma uint_chars_digits : forall d,
  forallb MediaInfoExecutor.is_digit
          (list_ascii_of_string (NilEmpty.string_of_uint d)) = true.
Proof. induction d; simpl; auto. Qed.

Ltac digit_offset :=
  repeat match goal with
         | |- context [(nat_of_ascii ?c - 48)%nat] =>
             let n := eval vm_compute in (nat_of_ascii c - 48)%nat in
             change (nat_of_ascii c - 48)%nat with n
         end.

Lemma uint_chars_value_acc : forall d p,
  decimal_value (Zpos p) (list_ascii_of_string (NilEmpty.string_of_uint d)) =
  Zpos (Pos.of_uint_acc d p).
Proof.
  unfold decimal_value.
  induction d; intros p; cbn [NilEmpty.string_of_uint list_ascii_of_string fold_left
                              Pos.of_uint_acc];
    [reflexivity | rewrite <- IHd; f_equal; digit_offset; lia ..].
Qed.

Lemma uint_chars_value : forall d,
  decimal_value 0 (list_ascii_of_string (NilEmpty.string_of_uint d)) = Z.of_uint d.
Proof.
  unfold Z.of_uint.
  induction d; cbn [NilEmpty.string_of_uint list_ascii_of_string Pos.of_uint];
    [reflexivity | ..];
    unfold decimal_value; cbn [fold_left]; digit_offset;
    [exact IHd
    | change (Z.of_N (N.pos ?q)) with (Z.pos q);
      rewrite <- (uint_chars_value_acc d); reflexivity ..].
Qed.

(** [str(z)] for [z >= 0] is a run of digits whose value is [z]. *)
Lemma str_of_int_digit_string : forall z,
  0 <= z ->
  digit_string (list_ascii_of_string (str_of_int z)) /\
  decimal_value 0 (list_ascii_of_string (str_of_int z)) = z.
Proof.
  intros z Hz. unfold str_of_int.
  pose proof (DecimalZ.of_to z) as Hback.
  destruct z as [|p|p]; [| |lia].
  - split; [split; [discriminate | reflexivity] | reflexivity].
  - cbn [Z.to_int] in *. cbn [NilZero.string_of_int Z.of_int] in *.
    unfold NilZero.string_of_uint.
    pose proof (DecimalPos.Unsigned.to_uint_nonnil p) as Hnn.
    destruct (Pos.to_uint p) eqn:E; [congruence | ..];
      (split; [split; [discriminate | apply uint_chars_digits]
              | rewrite uint_chars_value; exact Hback]).
Qed.

Lemma chars_length : forall s,
  List.length (list_ascii_of_string s) = String.length s.
Proof. induction s as [|c s IH]; simpl; [reflexivity | now rewrite IH]. Qed.

Lemma uint_chars_length : forall d,
  String.length (NilEmpty.string_of_uint d) = Decimal.nb_digits d.
Proof. induction d; simpl; auto. Qed.

(** A run of digits is the numeral of some decimal number. *)
Lemma digit_string_numeral : forall ds,
  forallb MediaInfoExecutor.is_digit ds = true ->
  exists d, list_ascii_of_string (NilEmpty.string_of_uint d) = ds /\
            Decimal.nb_digits d = List.length ds.
Proof.
  induction ds as [|c ds IH]; intros H; [exists Decimal.Nil; split; reflexivity|].
  cbn [forallb] in H. apply andb_true_iff in H. destruct H as [Hc Hds].
  destruct (IH Hds) as (d & Hd & Hn).
  destruct c as [[] [] [] [] [] [] [] []]; try discriminate Hc;
    [exists (Decimal.D7 d) | exists (Decimal.D3 d) | exists (Decimal.D5 d)
    | exists (Decimal.D9 d) | exists (Decimal.D1 d) | exists (Decimal.D6 d)
    | exists (Decimal.D2 d) | exists (Decimal.D4 d) | exists (Decimal.D8 d)
    | exists (Decimal.D0 d)];
    cbn [NilEmpty.string_of_uint list_ascii_of_string Decimal.nb_digits List.length];
    now rewrite Hd, Hn.
Qed.

(** Reading a run of digits and writing the number again does not make it
    longer: leading zeros go. *)
Lemma str_of_int_no_longer : forall ds,
  digit_string ds ->
  (String.length (str_of_int (decimal_value 0 ds)) <= List.length ds)%nat.
Proof.
  intros ds [Hne Hds]. destruct (digit_string_numeral ds Hds) as (d & Hd & Hn).
  rewrite <- Hd at 1. rewrite uint_chars_value. unfold str_of_int.
  change (Z.of_uint d) with (Z.of_int (Decimal.Pos d)).
  rewrite DecimalZ.to_of. cbn [Decimal.norm NilZero.string_of_int].
  rewrite <- Hn. unfold Decimal.unorm.
  pose proof (DecimalFacts.nb_digits_nzhead d) as Hz.
  destruct (Decimal.nzhead d) eqn:E;
    try (unfold NilZero.string_of_uint; rewrite uint_chars_length; exact Hz).
  cbn. destruct d; [simpl in Hn; destruct ds; [congruence | discriminate] | cbn; lia ..].
Qed.

(** ** What the pattern matches *)

Import MediaInfoExecutor.

Ltac split_conjunctions :=
  repeat match goal with |- _ /\ _ => split end.

Lemma digits_plus_spec : forall l ds rest,
  In (ds, rest) (digits_plus l) -> digit_string ds /\ l = ds ++ rest.
Proof.
  induction l as [|c l IH]; intros ds rest H; [contradiction|].
  cbn [digits_plus] in H. destruct (is_digit c) eqn:Hc; [|contradiction].
  apply in_app_or in H. destruct H as [H | [H | []]].
  - apply in_map_iff in H. destruct H as ([ds' rest'] & Heq & Hin).
    cbn [fst snd] in Heq. injection Heq as <- <-.
    destruct (IH _ _ Hin) as [[_ Hds] ->].
    split; [split; [discriminate | cbn [forallb]; now rewrite Hc] | reflexivity].
  - injection H as <- <-.
    split; [split; [discriminate | cbn [forallb]; now rewrite Hc] | reflexivity].
Qed.

Lemma dot_digits_spec : forall l g rest,
  In (g, rest) (dot_digits l) ->
  exists ds, g = "."%char :: ds /\ digit_string ds /\ l = g ++ rest.
Proof.
  intros l g rest H. destruct l as [|c l]; [contradiction|].
  cbn [dot_digits] in H. destruct (Ascii.eqb c "."%char) eqn:Hc; [|contradiction].
  apply Ascii.eqb_eq in Hc. subst c.
  apply in_map_iff in H. destruct H as ([ds rest'] & Heq & Hin).
  cbn [fst snd] in Heq. injection Heq as <- <-.
  destruct (digits_plus_spec _ _ _ Hin) as [Hds ->]. eauto.
Qed.

Lemma groups_plus_spec : forall fuel l gs rest,
  In (gs, rest) (groups_plus fuel l) ->
  exists dss, dss <> [] /\ Forall digit_string dss /\ gs = dotted dss /\ l = gs ++ rest.
Proof.
  induction fuel as [|fuel IH]; intros l gs rest H; [contradiction|].
  cbn [groups_plus] in H. apply in_flat_map in H. destruct H as ([g r] & Hg & H).
  destruct (dot_digits_spec _ _ _ Hg) as (ds & -> & Hds & ->).
  cbn [fst snd] in H. apply in_app_or in H. destruct H as [H | [H | []]].
  - apply in_map_iff in H. destruct H as ([gs' rest'] & Heq & Hin).
    cbn [fst snd] in Heq. injection Heq as <- <-.
    destruct (IH _ _ _ Hin) as (dss & _ & Hdss & -> & ->).
    exists (ds :: dss). split; [discriminate|]. split; [now constructor|].
    split; [|cbn [app]; now rewrite List.app_assoc].
    unfold dotted. cbn [map List.concat]. reflexivity.
  - injection H as <- <-. exists [ds]. split; [discriminate|].
    split; [now constructor|]. split; [|reflexivity].
    unfold dotted. cbn [map List.concat]. now rewrite app_nil_r.
Qed.

Lemma version_text_spec : forall l text rest,
  In (text, rest) (version_text l) ->
  exists d dss,
    digit_string d /\ dss <> [] /\ Forall digit_string dss /\
    text = d ++ dotted dss /\ l = text ++ rest.
Proof.
  intros l text rest H. unfold version_text in H.
  apply in_flat_map in H. destruct H as ([d r] & Hd & H).
  destruct (digits_plus_spec _ _ _ Hd) as [Hds ->].
  cbn [fst snd] in H. apply in_map_iff in H. destruct H as ([gs rest'] & Heq & Hin).
  cbn [fst snd] in Heq. injection Heq as <- <-.
  destruct (groups_plus_spec _ _ _ _ Hin) as (dss & Hne & Hdss & -> & ->).
  exists d, dss. split_conjunctions; auto. now rewrite List.app_assoc.
Qed.

Lemma match_here_spec : forall prev l text,
  match_here prev l = Some text ->
  exists d dss rest,
    digit_string d /\ dss <> [] /\ Forall digit_string dss /\
    text = d ++ dotted dss /\ l = "v"%char :: text ++ rest.
Proof.
  intros prev l text H. unfold match_here in H.
  destruct (boundary prev l); [|discriminate].
  destruct l as [|c r]; [discriminate|].
  destruct (Ascii.eqb c "v"%char) eqn:Hc; [|discriminate].
  apply Ascii.eqb_eq in Hc. subst c.
  destruct (find _ (version_text r)) as [[t rest]|] eqn:Hf; [|discriminate].
  injection H as <-. apply find_some in Hf. destruct Hf as [Hin _].
  destruct (version_text_spec _ _ _ Hin) as (d & dss & Hd & Hne & Hdss & -> & ->).
  exists d, dss, rest. cbn [fst]. split_conjunctions; auto.
Qed.

Lemma search_spec : forall l prev text,
  search prev l = Some text ->
  exists d dss before rest,
    digit_string d /\ dss <> [] /\ Forall digit_string dss /\
    text = d ++ dotted dss /\ l = before ++ "v"%char :: text ++ rest.
Proof.
  induction l as [|c l IH]; intros prev text H.
  - cbn [search] in H. destruct (match_here prev []) eqn:Hm; [|discriminate].
    injection H as ->. destruct (match_here_spec _ _ _ Hm) as (d & dss & rest & _ & _ & _ & _ & Hl).
    discriminate Hl.
  - cbn [search] in H. destruct (match_here prev (c :: l)) eqn:Hm.
    + injection H as ->.
      destruct (match_here_spec _ _ _ Hm) as (d & dss & rest & Hd & Hne & Hdss & Ht & Hl).
      exists d, dss, [], rest. split_conjunctions; auto.
    + destruct (IH _ _ H) as (d & dss & before & rest & Hd & Hne & Hdss & Ht & Hl).
      exists d, dss, (c :: before), rest. split_conjunctions; auto. now rewrite Hl.
Qed.

(** ** Splitting at the dots *)

Lemma digit_string_no_dot : forall ds,
  forallb is_digit ds = true ->
  forallb (fun c => negb (Ascii.eqb c "."%char)) ds = true.
Proof.
  induction ds as [|c ds IH]; intros H; [reflexivity|].
  cbn [forallb] in *. apply andb_true_iff in H. destruct H as [Hc Hds].
  destruct (digit_not_special c Hc) as (_ & _ & _ & _ & Hdot & _).
  now rewrite Hdot, IH.
Qed.

Lemma split_no_separator : forall sep d,
  forallb (fun c => negb (Ascii.eqb c sep)) d = true ->
  (split sep d = [d]) /\
  (forall rest, split sep (d ++ sep :: rest) = d :: split sep rest).
Proof.
  induction d as [|c d IH]; intros H.
  - split; [reflexivity|]. intros rest. cbn [app split]. now rewrite Ascii.eqb_refl.
  - cbn [forallb] in H. apply andb_true_iff in H. destruct H as [Hc Hd].
    apply negb_true_iff in Hc. destruct (IH Hd) as [IH1 IH2].
    split.
    + cbn [split]. now rewrite Hc, IH1.
    + intros rest. cbn [app split]. now rewrite Hc, IH2.
Qed.

Lemma split_dotted : forall dss d,
  forallb is_digit d = true ->
  Forall digit_string dss ->
  split "."%char (d ++ dotted dss) = d :: dss.
Proof.
  induction dss as [|ds dss IH]; intros d Hd Hdss.
  - unfold dotted. cbn [map List.concat]. rewrite app_nil_r.
    apply split_no_separator. now apply digit_string_no_dot.
  - inversion Hdss as [|? ? [_ Hds] Hrest]; subst.
    unfold dotted. cbn [map List.concat]. fold (dotted dss).
    change (("."%char :: ds) ++ dotted dss) with ("."%char :: (ds ++ dotted dss)).
    destruct (split_no_separator "."%char d (digit_string_no_dot d Hd)) as [_ ->].
    now rewrite IH.
Qed.

Lemma ints_digit_strings : forall dss,
  Forall digit_string dss ->
  ints dss =
  if forallb (fun ds => (List.length ds <=? max_str_digits)%nat) dss
  then Some (map (decimal_value 0) dss) else None.
Proof.
  induction dss as [|ds dss IH]; intros H; [reflexivity|].
  inversion H as [|? ? Hds Hrest]; subst.
  cbn [ints map forallb]. rewrite (int_of_str_digit_string ds Hds), (IH Hrest).
  destruct (List.length ds <=? max_str_digits)%nat; [|reflexivity].
  destruct (forallb _ dss); reflexivity.
Qed.

Lemma decimal_values_nonneg : forall dss,
  Forall (fun n => 0 <= n) (map (decimal_value 0) dss).
Proof.
  intros dss. apply Forall_forall. intros n Hn. apply in_map_iff in Hn.
  destruct Hn as (ds & <- & _). apply decimal_value_nonneg. lia.
Qed.

(** X14. [_get_version] returns [None], or finds after a lowercase [v] at
    least two dotted runs of digits.  When every run has at most
    [max_str_digits] digits it returns their values, none negative; when
    one is longer, [int] raises [ValueError] and [_get_version], which
    has no [try], raises it too.  Nothing else is raised. *)
Theorem get_version_returns_dotted_numbers :
  forall output,
    _get_version output = Return None \/
    exists d dss before rest,
      list_ascii_of_string output = before ++ "v"%char :: (d ++ dotted dss) ++ rest /\
      digit_string d /\ dss <> [] /\ Forall digit_string dss /\
      (2 <= List.length (d :: dss))%nat /\
      Forall (fun n => 0 <= n) (map (decimal_value 0) (d :: dss)) /\
      _get_version output =
        if forallb (fun ds => (List.length ds <=? max_str_digits)%nat) (d :: dss)
        then Return (Some (map (decimal_value 0) (d :: dss)))
        else Raise ValueError.
Proof.
  intros output. unfold _get_version.
  destruct (search None (list_ascii_of_string output)) as [text|] eqn:Hs; [|now left].
  right. destruct (search_spec _ _ _ Hs) as (d & dss & before & rest & Hd & Hne & Hdss & -> & Hl).
  exists d, dss, before, rest.
  rewrite (split_dotted dss d (proj2 Hd) Hdss).
  rewrite (ints_digit_strings (d :: dss)) by (now constructor).
  split_conjunctions; auto.
  - destruct dss; [congruence | cbn [List.length]; lia].
  - apply decimal_values_nonneg.
  - destruct (forallb _ (d :: dss)); reflexivity.
Qed.

(** ** The preferred match *)

Lemma digits_plus_stops : forall rest,
  match rest with c :: _ => is_digit c = false | [] => True end ->
  digits_plus rest = [].
Proof.
  intros [|c rest] H; [reflexivity|]. cbn [digits_plus]. now rewrite H.
Qed.

(** The longest run of digits is the first way [\d+] matches. *)
Lemma digits_plus_head : forall ds rest,
  digit_string ds ->
  match rest with c :: _ => is_digit c = false | [] => True end ->
  exists others, digits_plus (ds ++ rest) = (ds, rest) :: others.
Proof.
  intros ds rest [Hne Hds] Hrest.
  induction ds as [|c ds IH]; [congruence|].
  cbn [forallb] in Hds. apply andb_true_iff in Hds. destruct Hds as [Hc Hds].
  cbn [app digits_plus]. rewrite Hc. destruct ds as [|c' ds].
  - cbn [app]. rewrite (digits_plus_stops rest Hrest). cbn. eauto.
  - destruct (IH ltac:(discriminate) Hds) as [others ->]. cbn. eauto.
Qed.

Lemma dotted_head_no_digit : forall dss,
  match dotted dss with c :: _ => is_digit c = false | [] => True end.
Proof. intros [|ds dss]; [exact I | reflexivity]. Qed.

Lemma groups_plus_nil : forall fuel, groups_plus fuel [] = [].
Proof. intros [|fuel]; reflexivity. Qed.

(** All the groups are the first way [(?:\.\d+)+] matches. *)
Lemma groups_plus_head : forall dss fuel,
  dss <> [] -> Forall digit_string dss -> (List.length dss <= fuel)%nat ->
  exists others, groups_plus fuel (dotted dss) = (dotted dss, []) :: others.
Proof.
  induction dss as [|ds dss IH]; intros fuel Hne Hdss Hfuel; [congruence|].
  inversion Hdss as [|? ? Hds Hrest]; subst.
  destruct fuel as [|fuel]; [cbn in Hfuel; lia|].
  cbn [List.length] in Hfuel.
  unfold dotted. cbn [map List.concat]. fold (dotted dss).
  cbn [groups_plus]. change (("."%char :: ds) ++ dotted dss)
    with ("."%char :: (ds ++ dotted dss)).
  cbn [dot_digits]. rewrite Ascii.eqb_refl.
  destruct (digits_plus_head ds (dotted dss) Hds (dotted_head_no_digit dss))
    as [others ->].
  cbn [map flat_map fst snd].
  destruct dss as [|ds' dss].
  - unfold dotted at 1. cbn [map List.concat]. rewrite groups_plus_nil.
    cbn [map app]. unfold dotted. cbn [map List.concat]. rewrite app_nil_r. eauto.
  - destruct (IH fuel ltac:(discriminate) Hrest ltac:(lia)) as [others' ->].
    cbn [map app fst snd]. eauto.
Qed.

Lemma dotted_length : forall dss, (List.length dss <= List.length (dotted dss))%nat.
Proof.
  induction dss as [|ds dss IH]; [reflexivity|].
  unfold dotted. cbn [map List.concat]. fold (dotted dss).
  cbn [List.length app]. rewrite length_app. lia.
Qed.

Lemma version_text_head : forall d dss,
  digit_string d -> dss <> [] -> Forall digit_string dss ->
  exists others, version_text (d ++ dotted dss) = (d ++ dotted dss, []) :: others.
Proof.
  intros d dss Hd Hne Hdss. unfold version_text.
  destruct (digits_plus_head d (dotted dss) Hd (dotted_head_no_digit dss)) as [others ->].
  cbn [flat_map fst snd].
  destruct (groups_plus_head dss (List.length (dotted dss)) Hne Hdss (dotted_length dss))
    as [others' ->].
  cbn [map app fst snd]. eauto.
Qed.

Lemma last_of_app : forall (a b : list ascii) c,
  b <> [] -> last (a ++ b) c = last b c.
Proof.
  induction a as [|x a IH]; intros b c Hb; [reflexivity|].
  cbn [app last]. destruct (a ++ b) eqn:E.
  - destruct a, b; try discriminate; congruence.
  - rewrite <- E. now apply IH.
Qed.

Lemma last_satisfies : forall (p : ascii -> bool) l c,
  l <> [] -> forallb p l = true -> p (last l c) = true.
Proof.
  induction l as [|x l IH]; intros c Hne H; [congruence|].
  cbn [forallb] in H. apply andb_true_iff in H. destruct H as [Hx Hl].
  destruct l as [|y l]; [exact Hx|]. apply IH; [discriminate | exact Hl].
Qed.

Lemma dotted_ends_with_digits : forall dss,
  dss <> [] -> Forall digit_string dss ->
  exists a ds, dotted dss = a ++ ds /\ digit_string ds.
Proof.
  induction dss as [|ds dss IH]; intros Hne Hdss; [congruence|].
  inversion Hdss as [|? ? Hds Hrest]; subst.
  unfold dotted. cbn [map List.concat]. fold (dotted dss).
  destruct dss as [|ds' dss].
  - exists ["."%char], ds. unfold dotted. cbn [map List.concat]. rewrite app_nil_r. auto.
  - destruct (IH ltac:(discriminate) Hrest) as (a & ds0 & -> & Hds0).
    exists (("."%char :: ds) ++ a), ds0. now rewrite List.app_assoc.
Qed.

(** A dotted version right after a [v] at the start is found whole. *)
Lemma search_finds_whole_version : forall d dss,
  digit_string d -> dss <> [] -> Forall digit_string dss ->
  search None ("v"%char :: d ++ dotted dss) = Some (d ++ dotted dss).
Proof.
  intros d dss Hd Hne Hdss. cbn [search].
  assert (Hm : match_here None ("v"%char :: d ++ dotted dss) = Some (d ++ dotted dss)).
  { unfold match_here.
    change (boundary None ("v"%char :: d ++ dotted dss)) with true.
    cbv beta iota. rewrite Ascii.eqb_refl.
    destruct (version_text_head d dss Hd Hne Hdss) as [others ->].
    cbn [find fst snd].
    destruct (dotted_ends_with_digits dss Hne Hdss) as (a & ds & Ha & [Hdne Hds]).
    rewrite Ha, List.app_assoc, last_of_app by exact Hdne.
    unfold boundary, word_before, word_after.
    rewrite (last_satisfies is_word ds "v"%char Hdne).
    - reflexivity.
    - apply forallb_forall. intros c Hc.
      apply (proj1 (forallb_forall _ _) Hds) in Hc.
      now destruct (digit_not_special c Hc) as (_ & _ & _ & _ & _ & Hw). }
  now rewrite Hm.
Qed.

(** ** Rendering a version *)

Lemma chars_append : forall s1 s2,
  list_ascii_of_string (s1 ++ s2)%string
  = list_ascii_of_string s1 ++ list_ascii_of_string s2.
Proof. induction s1 as [|c s1 IH]; intros s2; simpl; [reflexivity | now rewrite IH]. Qed.

Lemma join_dots_chars : forall zs z,
  list_ascii_of_string (join "." (map str_of_int (z :: zs))) =
  list_ascii_of_string (str_of_int z)
  ++ dotted (map (fun n => list_ascii_of_string (str_of_int n)) zs).
Proof.
  induction zs as [|z' zs IH]; intros z.
  - cbn [map join]. unfold dotted. cbn [map List.concat]. now rewrite app_nil_r.
  - change (join "." (map str_of_int (z :: z' :: zs)))
      with (str_of_int z ++ "." ++ join "." (map str_of_int (z' :: zs)))%string.
    rewrite !chars_append, IH. unfold dotted. cbn [map List.concat]. reflexivity.
Qed.

Lemma rendered_numbers : forall zs,
  Forall (fun n => 0 <= n /\ (String.length (str_of_int n) <= max_str_digits)%nat) zs ->
  Forall digit_string (map (fun n => list_ascii_of_string (str_of_int n)) zs) /\
  forallb (fun ds => (List.length ds <=? max_str_digits)%nat)
          (map (fun n => list_ascii_of_string (str_of_int n)) zs) = true /\
  map (decimal_value 0) (map (fun n => list_ascii_of_string (str_of_int n)) zs) = zs.
Proof.
  induction zs as [|z zs IH]; intros H; [repeat split; constructor|].
  inversion H as [|? ? [Hz Hlen] Hzs]; subst.
  destruct (IH Hzs) as (IH1 & IH2 & IH3).
  destruct (str_of_int_digit_string z Hz) as [Hd Hv].
  split; [now constructor|]. split.
  - cbn [map forallb]. rewrite chars_length, IH2.
    apply Nat.leb_le in Hlen. now rewrite Hlen.
  - cbn [map]. now rewrite Hv, IH3.
Qed.

Lemma rendered_version_reads_back : forall z z' zs,
  Forall (fun n => 0 <= n /\ (String.length (str_of_int n) <= max_str_digits)%nat)
         (z :: z' :: zs) ->
  _get_version ("v" ++ join "." (map str_of_int (z :: z' :: zs)))
  = Return (Some (z :: z' :: zs)).
Proof.
  intros z z' zs Hpos.
  destruct (rendered_numbers (z :: z' :: zs) Hpos) as (Hds & Hshort & Hvalues).
  set (d := list_ascii_of_string (str_of_int z)) in *.
  set (dss := map (fun n => list_ascii_of_string (str_of_int n)) (z' :: zs)) in *.
  cbn [map] in Hds. fold d in Hds. fold dss in Hds.
  inversion Hds as [|? ? Hd Hdss]; subst.
  unfold _get_version.
  change (list_ascii_of_string ("v" ++ join "." (map str_of_int (z :: z' :: zs))))
    with ("v"%char :: list_ascii_of_string (join "." (map str_of_int (z :: z' :: zs)))).
  rewrite join_dots_chars. fold d. fold dss.
  rewrite (search_finds_whole_version d dss Hd ltac:(discriminate) Hdss).
  rewrite (split_dotted dss d (proj2 Hd) Hdss).
  rewrite (ints_digit_strings (d :: dss)) by (now constructor).
  subst d dss.
  change (forallb (fun ds => (List.length ds <=? max_str_digits)%nat)
            (map (fun n => list_ascii_of_string (str_of_int n)) (z :: z' :: zs)) = true)
    in Hshort.
  change (list_ascii_of_string (str_of_int z)
          :: map (fun n => list_ascii_of_string (str_of_int n)) (z' :: zs))
    with (map (fun n => list_ascii_of_string (str_of_int n)) (z :: z' :: zs)).
  now rewrite Hshort, Hvalues.
Qed.

(** What [_get_version] can do. *)
Lemma get_version_outcome : forall output,
  match _get_version output with
  | Return None => True
  | Return (Some version) =>
      exists dss,
        version = map (decimal_value 0) dss /\
        Forall digit_string dss /\
        Forall (fun ds => (List.length ds <= max_str_digits)%nat) dss /\
        (2 <= List.length dss)%nat
  | Raise e => e = ValueError
  end.
Proof.
  intros output. unfold _get_version.
  destruct (search None (list_ascii_of_string output)) as [text|] eqn:Hs; [|exact I].
  destruct (search_spec _ _ _ Hs) as (d & dss & before & rest & Hd & Hne & Hdss & -> & Hl).
  rewrite (split_dotted dss d (proj2 Hd) Hdss).
  rewrite (ints_digit_strings (d :: dss)) by (now constructor).
  destruct (forallb _ (d :: dss)) eqn:Hshort; [|reflexivity].
  exists (d :: dss). split; [reflexivity|]. split; [now constructor|]. split.
  - apply Forall_forall. intros ds Hin.
    apply (proj1 (forallb_forall _ _) Hshort) in Hin. now apply Nat.leb_le.
  - destruct dss; [congruence | cbn [List.length]; lia].
Qed.

(** What a version [_get_version] returned is made of. *)
Lemma returned_version_renders : forall output version,
  _get_version output = Return (Some version) ->
  (2 <= List.length version)%nat /\
  Forall (fun n => 0 <= n /\ (String.length (str_of_int n) <= max_str_digits)%nat) version.
Proof.
  intros output version H. pose proof (get_version_outcome output) as Ho.
  rewrite H in Ho. destruct Ho as (dss & -> & Hds & Hshort & Hlen).
  split; [now rewrite length_map|].
  apply Forall_forall. intros n Hn. apply in_map_iff in Hn.
  destruct Hn as (ds & <- & Hin).
  pose proof (proj1 (Forall_forall _ _) Hds ds Hin) as Hd.
  pose proof (proj1 (Forall_forall _ _) Hshort ds Hin) as Hs.
  cbv beta in Hs. split; [apply decimal_value_nonneg; lia|].
  exact (Nat.le_trans _ _ _ (str_of_int_no_longer ds Hd) Hs).
Qed.

(** X15. A version of at least two numbers, none negative and none with
    more than [max_str_digits] digits, written as [v] followed by the
    numbers joined with dots (the way the property [version] of the
    provider writes it) is read back by [_get_version] as the same
    numbers. *)
Theorem get_version_reads_back_rendered_version :
  forall version,
    (2 <= List.length version)%nat ->
    Forall (fun n => 0 <= n /\ (String.length (str_of_int n) <= max_str_digits)%nat)
           version ->
    _get_version ("v" ++ join "." (map str_of_int version)) = Return (Some version).
Proof.
  intros version Hlen Hpos.
  destruct version as [|z zs]; [cbn in Hlen; lia|].
  destruct zs as [|z' zs]; [cbn in Hlen; lia|].
  now apply rendered_version_reads_back.
Qed.

(** X16. The pattern needs a lowercase [v] and a dot: an output without
    one of them yields [None]. *)
Theorem get_version_needs_v_and_dot :
  forall output,
    ~ In "v"%char (list_ascii_of_string output) \/
    ~ In "."%char (list_ascii_of_string output) ->
    _get_version output = Return None.
Proof.
  intros output H. unfold _get_version.
  destruct (search None (list_ascii_of_string output)) as [text|] eqn:Hs; [|reflexivity].
  exfalso.
  destruct (search_spec _ _ _ Hs) as (d & dss & before & rest & _ & Hne & _ & -> & Hl).
  rewrite Hl in H. destruct H as [H | H]; apply H.
  - apply in_or_app. right. now left.
  - apply in_or_app. right. right. apply in_or_app. left. apply in_or_app. right.
    destruct dss as [|ds dss]; [congruence|]. now left.
Qed.

(** ** The [create] class methods *)

Section CliCreate.

Variable define_candidate :
  list (string * list string) -> list (string * list string) ->
  string -> option string -> list string.
Variable check_output : string -> MediaInfoCliExecutor.check_output_result.

Local Notation cli_candidates os_family suggested_path :=
  (define_candidate MediaInfoExecutor.locations MediaInfoCliExecutor.names
                    os_family suggested_path).
Local Notation try_candidates := (MediaInfoCliExecutor.try_candidates check_output).
Local Notation create := (MediaInfoCliExecutor.create define_candidate check_output).

(** The command at [candidate] ran, with whatever exit code, and printed
    [output]. *)
Local Notation printed candidate output :=
  (check_output candidate = MediaInfoCliExecutor.Completed output \/
   check_output candidate = MediaInfoCliExecutor.CalledProcessError output).

(** What stopped the loop with an exception: the runner, the decoding in
    the handler, or [int] inside [_get_version]. *)
Local Notation raised_at candidate e :=
  (check_output candidate = MediaInfoCliExecutor.Failed e \/
   check_output candidate = MediaInfoCliExecutor.CalledProcessErrorUndecodable e \/
   (e = ValueError /\
    exists output, printed candidate output /\ _get_version output = Raise ValueError)).

Lemma cli_try_candidates_sound : forall candidates,
  match try_candidates candidates with
  | Return None => True
  | Return (Some executor) =>
      In (location executor) candidates /\
      (exists output,
          printed (location executor) output /\
          _get_version output = Return (Some (version executor)))
  | Raise e => exists candidate, In candidate candidates /\ raised_at candidate e
  end.
Proof.
  induction candidates as [|candidate rest IH]; [exact I|].
  assert (later :
    match try_candidates rest with
    | Return None => True
    | Return (Some executor) =>
        In (location executor) (candidate :: rest) /\
        (exists output,
            printed (location executor) output /\
            _get_version output = Return (Some (version executor)))
    | Raise e => exists c, In c (candidate :: rest) /\ raised_at c e
    end).
  { destruct (try_candidates rest) as [[executor|]|e]; [| exact I |].
    - destruct IH as (Hin & Hout). split; [now right | auto].
    - destruct IH as (c & Hin & Hc). exists c. split; [now right | exact Hc]. }
  assert (found : forall output,
    printed candidate output ->
    match match _get_version output with
          | Raise e => Raise e
          | Return (Some (n :: ns)) =>
              Return (Some {| location := candidate; version := n :: ns |})
          | Return _ => try_candidates rest
          end with
    | Return None => True
    | Return (Some executor) =>
        In (location executor) (candidate :: rest) /\
        (exists output,
            printed (location executor) output /\
            _get_version output = Return (Some (version executor)))
    | Raise e => exists c, In c (candidate :: rest) /\ raised_at c e
    end).
  { intros output Hprinted. pose proof (get_version_outcome output) as Hv.
    destruct (_get_version output) as [[[|n ns]|]|e] eqn:Hg;
      [exact later | | exact later |].
    - cbn [location version]. split; [now left|].
      exists output. split; [exact Hprinted | exact Hg].
    - subst e. exists candidate. split; [now left|]. right. right.
      split; [reflexivity|]. exists output. split; [exact Hprinted | exact Hg]. }
  cbn [MediaInfoCliExecutor.try_candidates].
  destruct (check_output candidate) as [output|output|e| |e] eqn:Hc.
  - apply found. now left.
  - apply found. now right.
  - exists candidate. split; [now left | right; left; exact Hc].
  - exact later.
  - exists candidate. split; [now left | left; exact Hc].
Qed.

(** X17. An executor the command-line [create] returns stands for one of
    the candidates; the command at that candidate ran, with a zero or a
    non-zero exit code, and the executor's version is what [_get_version]
    read in its output: at least two numbers, none negative. *)
Theorem cli_create_returns_a_candidate_with_its_version :
  forall os_family suggested_path executor,
    create os_family suggested_path = Return (Some executor) ->
    In (location executor) (cli_candidates os_family suggested_path) /\
    (exists output,
        printed (location executor) output /\
        _get_version output = Return (Some (version executor))) /\
    (2 <= List.length (version executor))%nat /\
    Forall (fun n => 0 <= n) (version executor).
Proof.
  intros os_family suggested_path executor H.
  pose proof (cli_try_candidates_sound (cli_candidates os_family suggested_path)) as Hs.
  unfold MediaInfoCliExecutor.create in H. rewrite H in Hs.
  destruct Hs as (Hin & output & Hprinted & Hv).
  destruct (returned_version_renders output _ Hv) as [Hlen Hpos].
  split; [exact Hin|]. split; [eauto|]. split; [exact Hlen|].
  apply Forall_forall. intros n Hn.
  exact (proj1 (proj1 (Forall_forall _ _) Hpos n Hn)).
Qed.

(** X18. The command-line [create] raises in three ways only, each at one
    of the candidates: the command runner raised something other than
    [CalledProcessError] and [OSError]; the output of a command that
    exited with a non-zero code could not be decoded in the handler; or
    [_get_version] raised [ValueError] on the candidate's output, a run of
    digits being too long for [int]. *)
Theorem cli_create_raises_in_three_ways :
  forall os_family suggested_path e,
    create os_family suggested_path = Raise e ->
    exists candidate,
      In candidate (cli_candidates os_family suggested_path) /\
      raised_at candidate e.
Proof.
  intros os_family suggested_path e H.
  pose proof (cli_try_candidates_sound (cli_candidates os_family suggested_path)) as Hs.
  unfold MediaInfoCliExecutor.create in H. rewrite H in Hs. exact Hs.
Qed.

(** A candidate without a usable answer: the command could not be started,
    or its output holds no version. *)
Local Notation skipped candidate :=
  (check_output candidate = MediaInfoCliExecutor.OSError \/
   exists output, printed candidate output /\ _get_version output = Return None).

Lemma cli_try_candidates_skips : forall before rest,
  (forall candidate, In candidate before -> skipped candidate) ->
  try_candidates (before ++ rest) = try_candidates rest.
Proof.
  induction before as [|candidate before IH]; intros rest H; [reflexivity|].
  cbn [app MediaInfoCliExecutor.try_candidates].
  assert (IH' : try_candidates (before ++ rest) = try_candidates rest)
    by (apply IH; intros c Hc; apply H; now right).
  destruct (H candidate (or_introl eq_refl)) as [-> | (output & [-> | ->] & ->)];
    exact IH'.
Qed.

(** X19. The command-line [create] takes the first candidate, in order,
    whose command prints a version: candidates that could not be started
    or printed none are passed over, the exit code of the command makes no
    difference, and later candidates are not looked at.  When every
    candidate is passed over, the result is [None]. *)
Theorem cli_create_takes_first_candidate_with_version :
  forall os_family suggested_path,
    (forall before candidate rest output n ns,
        cli_candidates os_family suggested_path = before ++ candidate :: rest ->
        (forall c, In c before -> skipped c) ->
        printed candidate output ->
        _get_version output = Return (Some (n :: ns)) ->
        create os_family suggested_path =
        Return (Some {| location := candidate; version := n :: ns |})) /\
    ((forall c, In c (cli_candidates os_family suggested_path) -> skipped c) ->
     create os_family suggested_path = Return None).
Proof.
  intros os_family suggested_path. unfold MediaInfoCliExecutor.create. split.
  - intros before candidate rest output n ns -> Hbefore Hprinted Hv.
    rewrite (cli_try_candidates_skips before (candidate :: rest) Hbefore).
    cbn [MediaInfoCliExecutor.try_candidates].
    destruct Hprinted as [-> | ->]; now rewrite Hv.
  - intros Hall.
    rewrite <- (app_nil_r (cli_candidates os_family suggested_path)).
    now rewrite (cli_try_candidates_skips _ [] Hall).
Qed.

End CliCreate.

Section CTypesCreate.

Variable define_candidate :
  list (string * list string) -> list (string * list string) ->
  string -> option string -> list string.
Variable can_parse : string -> bool.
Variable info_version : string -> string.

Local Notation ctypes_candidates os_family suggested_path :=
  (define_candidate MediaInfoExecutor.locations MediaInfoCTypesExecutor.names
                    os_family suggested_path).
Local Notation create :=
  (MediaInfoCTypesExecutor.create define_candidate can_parse info_version).

(** X20. The ctypes [create] looks at the first candidate that can be
    parsed and at no other: it returns that candidate with the version of
    its library; it raises [TypeError] when the library's version string
    holds no version, and the [ValueError] of [_get_version] when a run of
    digits in it is too long for [int], even if a later candidate would
    do.  Without a candidate that can be parsed the result is [None];
    nothing else is raised. *)
Theorem ctypes_create_decides_on_first_parsable_candidate :
  forall os_family suggested_path,
    create os_family suggested_path =
    match find can_parse (ctypes_candidates os_family suggested_path) with
    | None => Return None
    | Some candidate =>
        match _get_version (info_version candidate) with
        | Return (Some version) =>
            Return (Some {| location := candidate; version := version |})
        | Return None => Raise TypeError
        | Raise e => Raise ValueError
        end
    end.
Proof.
  intros os_family suggested_path. unfold MediaInfoCTypesExecutor.create.
  induction (ctypes_candidates os_family suggested_path) as [|candidate rest IH];
    [reflexivity|].
  cbn [MediaInfoCTypesExecutor.try_candidates find].
  destruct (can_parse candidate); [|exact IH].
  pose proof (get_version_outcome (info_version candidate)) as Hv.
  destruct (_get_version (info_version candidate)) as [[v|]|e];
    [reflexivity | reflexivity | now subst e].
Qed.

End CTypesCreate.

(** ** From [create] to the provider block *)

(** X21. For an executor the command-line [create] returned, the entry the
    property [version] of the provider writes under the executor's
    location is a string that [_get_version] reads back as the executor's
    version. *)
Theorem created_executor_version_reads_back :
  forall define_candidate check_output os_family suggested_path pymediainfo_version
         executor,
    MediaInfoCliExecutor.create define_candidate check_output os_family suggested_path
    = Return (Some executor) ->
    exists kv rendered,
      MediaInfoProvider.version pymediainfo_version (init (Some executor)) = VDict kv /\
      dict_get kv (location executor) = Some (VStr rendered) /\
      _get_version rendered = Return (Some (version executor)).
Proof.
  intros define_candidate check_output os_family suggested_path pymediainfo_version
         executor H.
  pose proof (cli_try_candidates_sound
                check_output
                (define_candidate MediaInfoExecutor.locations MediaInfoCliExecutor.names
                                  os_family suggested_path)) as Hs.
  unfold MediaInfoCliExecutor.create in H. rewrite H in Hs.
  destruct Hs as (_ & output & _ & Hv).
  destruct (returned_version_renders output _ Hv) as [Hlen Hpos].
  eexists _, _. split; [reflexivity|]. split; [apply dict_get_set_same|].
  destruct (version executor) as [|z [|z' zs]]; try (cbn in Hlen; lia).
  now apply rendered_version_reads_back.
Qed.

(** * The further properties at concrete inputs *)

Lemma basic_raises_only_what_the_type_raises_witness :
  Basic.handle Sample.track_id (VList [VStr "1"; VStr "2"]) Context.empty
  = (Raise TypeError, Context.empty).
Proof.
  apply (proj2 (basic_raises_only_what_the_type_raises
                  Sample.track_id (VList [VStr "1"; VStr "2"]) Context.empty
                  TypeError Context.empty)).
  repeat split. discriminate.
Defined.

Lemma basic_result_is_typed_and_stable_witness :
  Basic.handle Sample.track_id (VStr " 7 ") Context.empty
    = (Return (VInt 7), Context.empty) /\
  Basic.handle Sample.track_id (VInt 7) Context.empty
    = (Return (VInt 7), Context.empty).
Proof.
  split; [reflexivity|].
  apply (proj2 (basic_result_is_typed_and_stable
                  (fun _ => None) (fun _ => "") Int
                  {| Property.name := "ID"; Property.description := "video track number" |}
                  true (VStr " 7 ") (VInt 7) Context.empty Context.empty eq_refl)).
  discriminate.
Defined.

Lemma audio_channels_agrees_with_basic_int_witness :
  AudioChannels.is_ignored (lower "Six") = false /\
  AudioChannels.handle {| Property.name := "Channels"; Property.description := "" |}
                       (VStr "Six") Context.empty =
  Basic.handle {| Basic.property := {| Property.name := "Channels";
                                       Property.description := "" |};
                  Basic.data_type := py_int;
                  Basic.allow_fallback := false |} (VStr "Six") Context.empty.
Proof.
  split; [reflexivity|].
  apply audio_channels_agrees_with_basic_int.
  right. exists "Six". split; reflexivity.
Defined.

Lemma audio_channels_raises_on_other_types_witness :
  AudioChannels.handle {| Property.name := "Channels"; Property.description := "" |}
                       (VFloat 2.5%float) Context.empty
  = (Raise AttributeError, Context.empty).
Proof.
  apply (proj2 (audio_channels_raises_on_other_types
                  {| Property.name := "Channels"; Property.description := "" |}
                  (VFloat 2.5%float) Context.empty AttributeError Context.empty)).
  repeat split. intros s. discriminate.
Defined.

Lemma describe_non_dict_track_raises_witness :
  forallb is_dict [VDict Sample.general; VStr "Video"] = false /\
  MediaInfoProvider.describe
    "5.1.0"
    (fun _ _ => Return (VDict [("media", VDict [("track",
                          VList [VDict Sample.general; VStr "Video"])])]))
    (Schema.describe_tracks Schema.mediainfo) Sample.provider "sample.mkv" Context.empty
  = (Raise AttributeError,
     {| warnings := [];
        debug_data :=
          Some (VDict [("media", VDict [("track",
                  VList [VDict Sample.general; VStr "Video"])])]) |}).
Proof.
  split; [reflexivity|].
  apply (describe_non_dict_track_raises
           "5.1.0" _ (Schema.describe_tracks Schema.mediainfo)
           Sample.provider Sample.libmediainfo "sample.mkv" Context.empty
           _ [VDict Sample.general; VStr "Video"]); reflexivity.
Defined.

Lemma describe_track_value_not_a_list_raises_witness :
  MediaInfoProvider.describe
    "5.1.0"
    (fun _ _ => Return (VDict [("media", VDict [("track", VDict Sample.general)])]))
    (Schema.describe_tracks Schema.mediainfo) Sample.provider "sample.mkv" Context.empty
  = (Raise AttributeError,
     {| warnings := [];
        debug_data :=
          Some (VDict [("media", VDict [("track", VDict Sample.general)])]) |}).
Proof.
  apply (describe_track_value_not_a_list_raises
           "5.1.0" _ (Schema.describe_tracks Schema.mediainfo)
           Sample.provider Sample.libmediainfo "sample.mkv" Context.empty
           _ (VDict Sample.general)); try reflexivity.
  intros l. discriminate.
Defined.

Lemma describe_missing_keys_is_malformed_witness :
  MediaInfoProvider.describe
    "5.1.0"
    (fun _ _ => Return (VDict [("media", VDict [("@ref", VStr "sample.mkv")])]))
    (Schema.describe_tracks Schema.mediainfo) Sample.provider "sample.mkv" Context.empty
  = (Raise MalformedFileError,
     {| warnings := [];
        debug_data := Some (VDict [("media", VDict [("@ref", VStr "sample.mkv")])]) |}).
Proof.
  apply (describe_missing_keys_is_malformed
           "5.1.0" _ (Schema.describe_tracks Schema.mediainfo)
           Sample.provider Sample.libmediainfo "sample.mkv" Context.empty
           [("media", VDict [("@ref", VStr "sample.mkv")])]); try reflexivity.
  right. exists [("@ref", VStr "sample.mkv")]. split; [reflexivity | now left].
Defined.

Lemma describe_keeps_normalized_fields_witness :
  exists kv',
    Sample.describe [Sample.general; Sample.audio] Context.empty
    = (Return (VDict kv'),
       {| warnings := [{| reporter := "Channels"; reported := VStr "six" |}];
          debug_data := Some (Sample.probe_output [Sample.general; Sample.audio]) |}) /\
    dict_get kv' "general" = Some (VDict [("title", VStr "Sample")]) /\
    dict_get kv' "audio" = Some (VList [VDict [("id", VInt 2)]]).
Proof.
  destruct (describe_keeps_normalized_fields
              "5.1.0"
              (fun _ _ => Return (Sample.probe_output [Sample.general; Sample.audio]))
              (Schema.describe_tracks Schema.mediainfo)
              Sample.provider Sample.libmediainfo "sample.mkv" Context.empty
              (Sample.probe_output [Sample.general; Sample.audio])
              [Sample.general; Sample.audio]
              [("general", VDict [("title", VStr "Sample")]);
               ("video", VList []);
               ("audio", VList [VDict [("id", VInt 2)]]);
               ("subtitle", VList [])]
              {| warnings := [{| reporter := "Channels"; reported := VStr "six" |}];
                 debug_data := Some (Sample.probe_output [Sample.general; Sample.audio]) |}
              eq_refl eq_refl eq_refl ltac:(discriminate) eq_refl ltac:(discriminate))
    as (kv' & Hd & _ & Hother & _).
  exists kv'. split; [exact Hd|].
  split; rewrite Hother by discriminate; reflexivity.
Defined.

Lemma describe_fails_after_normalization_witness :
  MediaInfoProvider.describe
    "5.1.0" (fun _ _ => Return (Sample.probe_output [Sample.general]))
    (fun _ _ _ _ _ => ret (VDict [])) Sample.provider "sample.mkv" Context.empty
  = (Raise MalformedFileError,
     {| warnings := []; debug_data := Some (Sample.probe_output [Sample.general]) |}).
Proof.
  apply (proj1 (describe_fails_after_normalization
                  "5.1.0" (fun _ _ => Return (Sample.probe_output [Sample.general]))
                  (fun _ _ _ _ _ => ret (VDict []))
                  Sample.provider Sample.libmediainfo "sample.mkv" Context.empty
                  (Sample.probe_output [Sample.general]) [Sample.general]
                  (Return (VDict []))
                  {| warnings := [];
                     debug_data := Some (Sample.probe_output [Sample.general]) |}
                  eq_refl eq_refl eq_refl ltac:(discriminate) eq_refl)).
  reflexivity.
Defined.

Lemma describe_fails_before_touching_context_witness :
  MediaInfoProvider.describe
    "5.1.0" (fun _ _ => Return (Sample.probe_output [Sample.general]))
    (Schema.describe_tracks Schema.mediainfo)
    (snd (accepts [".mkv"] (init None) "sample.mkv")) "sample.mkv" Context.empty
    = (Raise AttributeError, Context.empty) /\
  MediaInfoProvider.describe
    "5.1.0" (fun _ _ => Raise (OtherError "CalledProcessError"))
    (Schema.describe_tracks Schema.mediainfo) Sample.provider "sample.mkv" Context.empty
    = (Raise (OtherError "CalledProcessError"), Context.empty).
Proof.
  split.
  - apply (proj1 (describe_fails_before_touching_context
                    "5.1.0" _ (Schema.describe_tracks Schema.mediainfo)
                    (snd (accepts [".mkv"] (init None) "sample.mkv"))
                    "sample.mkv" Context.empty)).
    right. reflexivity.
  - apply (proj2 (describe_fails_before_touching_context
                    "5.1.0" (fun _ _ => Raise (OtherError "CalledProcessError"))
                    (Schema.describe_tracks Schema.mediainfo)
                    Sample.provider "sample.mkv" Context.empty)
                 Sample.libmediainfo (OtherError "CalledProcessError"));
      reflexivity.
Defined.

Lemma accepts_by_lowercased_extension_witness :
  fst (accepts [".avi"; ".mkv"] Sample.provider "Movie.MKV") = VBool true.
Proof.
  apply (proj2 (proj2 (accepts_by_lowercased_extension
                         [".avi"; ".mkv"] Sample.provider Sample.libmediainfo
                         "Movie.MKV" eq_refl))).
  exists ".mkv", "movie". split; [right; left; reflexivity | reflexivity].
Defined.

Lemma get_executor_instance_prefers_ctypes_witness :
  MediaInfoExecutor.get_executor_instance
    "unix" (fun _ _ => Some Sample.libmediainfo)
    (fun _ _ => Some {| location := "mediainfo"; version := [0; 7] |}) None
  = Some Sample.libmediainfo.
Proof.
  apply (proj1 (get_executor_instance_prefers_ctypes
                  "unix" (fun _ _ => Some Sample.libmediainfo)
                  (fun _ _ => Some {| location := "mediainfo"; version := [0; 7] |})
                  None)).
  reflexivity.
Defined.

Lemma get_version_reads_back_rendered_version_witness :
  _get_version "v21.9" = Return (Some [21; 9]).
Proof.
  apply (get_version_reads_back_rendered_version [21; 9]).
  - cbn. lia.
  - repeat constructor; try lia; apply Nat.leb_le; vm_compute; reflexivity.
Defined.

Lemma get_version_needs_v_and_dot_witness :
  _get_version "MediaInfoLib - V21.09" = Return None /\
  _get_version "mediainfo v21" = Return None.
Proof.
  split; apply get_version_needs_v_and_dot.
  - left. intros H. cbn in H.
    repeat (destruct H as [H | H]; [discriminate H|]). exact H.
  - right. intros H. cbn in H.
    repeat (destruct H as [H | H]; [discriminate H|]). exact H.
Defined.

Lemma cli_create_returns_a_candidate_with_its_version_witness :
  In "mediainfo" ["/usr/local/mediainfo/bin/mediainfo"; "mediainfo"] /\
  _get_version "MediaInfo Command line, MediaInfoLib - v0.7.64" = Return (Some [0; 7; 64]).
Proof.
  destruct (cli_create_returns_a_candidate_with_its_version
              (fun _ _ _ _ => ["/usr/local/mediainfo/bin/mediainfo"; "mediainfo"])
              (fun candidate =>
                 if String.eqb candidate "mediainfo"
                 then MediaInfoCliExecutor.CalledProcessError
                        "MediaInfo Command line, MediaInfoLib - v0.7.64"
                 else MediaInfoCliExecutor.OSError)
              "unix" None
              {| location := "mediainfo"; version := [0; 7; 64] |}
              ltac:(vm_compute; reflexivity))
    as (Hin & (output & Hprinted & Hversion) & _).
  split; [exact Hin|].
  cbn in Hprinted. destruct Hprinted as [Hp | Hp]; [discriminate Hp|].
  injection Hp as <-. exact Hversion.
Defined.

Lemma cli_create_raises_in_three_ways_witness :
  MediaInfoCliExecutor.create
    (fun _ _ _ _ => ["mediainfo"])
    (fun _ => MediaInfoCliExecutor.CalledProcessErrorUndecodable
                (OtherError "UnicodeDecodeError"))
    "unix" None
    = Raise (OtherError "UnicodeDecodeError") /\
  exists candidate, In candidate ["mediainfo"].
Proof.
  split; [reflexivity|].
  destruct (cli_create_raises_in_three_ways
              (fun _ _ _ _ => ["mediainfo"])
              (fun _ => MediaInfoCliExecutor.CalledProcessErrorUndecodable
                          (OtherError "UnicodeDecodeError"))
              "unix" None (OtherError "UnicodeDecodeError") eq_refl)
    as (candidate & Hin & _).
  exists candidate. exact Hin.
Defined.

Lemma cli_create_takes_first_candidate_with_version_witness :
  MediaInfoCliExecutor.create
    (fun _ _ _ _ => ["/usr/local/mediainfo/bin/mediainfo"; "mediainfo"; "mediainfo2"])
    (fun candidate =>
       if String.eqb candidate "mediainfo"
       then MediaInfoCliExecutor.CalledProcessError
              "MediaInfo Command line, MediaInfoLib - v0.7.64"
       else if String.eqb candidate "mediainfo2"
            then MediaInfoCliExecutor.Completed "MediaInfoLib - v21.09"
            else MediaInfoCliExecutor.OSError)
    "unix" None
  = Return (Some {| location := "mediainfo"; version := [0; 7; 64] |}).
Proof.
  apply (proj1 (cli_create_takes_first_candidate_with_version
                  (fun _ _ _ _ => ["/usr/local/mediainfo/bin/mediainfo"; "mediainfo";
                                   "mediainfo2"])
                  _ "unix" None)
               ["/usr/local/mediainfo/bin/mediainfo"] "mediainfo" ["mediainfo2"]
               "MediaInfo Command line, MediaInfoLib - v0.7.64" 0 [7; 64]).
  - reflexivity.
  - intros c [<- | []]. left. reflexivity.
  - right. reflexivity.
  - vm_compute. reflexivity.
Defined.

Lemma created_executor_version_reads_back_witness :
  exists kv rendered,
    MediaInfoProvider.version
      "5.1.0" (init (Some {| location := "mediainfo"; version := [21; 9] |})) = VDict kv /\
    dict_get kv "mediainfo" = Some (VStr rendered) /\
    _get_version rendered = Return (Some [21; 9]).
Proof.
  exact (created_executor_version_reads_back
           (fun _ _ _ _ => ["mediainfo"])
           (fun _ => MediaInfoCliExecutor.Completed "MediaInfoLib - v21.09")
           "unix" None "5.1.0"
           {| location := "mediainfo"; version := [21; 9] |}
           ltac:(vm_compute; reflexivity)).
Defined.

(** ** The executors on examples *)

(** A number written with a leading zero loses it: the version the tool
    prints as [v21.09] is shown as [v21.9]. *)
Example zero_padded_version :
  _get_version "MediaInfo Command line, MediaInfoLib - v21.09" = Return (Some [21; 9]) /\
  ("v" ++ join "." (map str_of_int [21; 9]))%string = "v21.9".
Proof. split; vm_compute; reflexivity. Qed.

(** When the last number is followed by a letter, the match gives up that
    number; when the only dotted number is, nothing matches. *)
Example version_before_a_letter :
  _get_version "v1.2.3a" = Return (Some [1; 2]) /\ _get_version "v1.2a" = Return None.
Proof. split; vm_compute; reflexivity. Qed.

(** The ctypes [create] raises on a library without a version even when a
    later candidate has one. *)
Example ctypes_create_without_version :
  MediaInfoCTypesExecutor.create
    (fun _ _ _ _ => ["libmediainfo.so.0"; "libmediainfo.so"])
    (fun _ => true)
    (fun candidate => if String.eqb candidate "libmediainfo.so.0"
                      then "MediaInfoLib" else "MediaInfoLib - v21.09")
    "unix" None
  = Raise TypeError.
Proof. vm_compute. reflexivity. Qed.

(** A run of 4301 digits is too long for [int]: [_get_version] raises
    where a run of 4300 digits would give a version. *)
Example get_version_long_run_raises :
  _get_version
    (string_of_list_ascii ("v"%char :: repeat "1"%char 4301 ++ ["."%char; "1"%char]))
  = Raise ValueError.
Proof.
  unfold _get_version. rewrite list_ascii_of_string_of_list_ascii.
  assert (Hd : digit_string (repeat "1"%char 4301)).
  { split.
    - intros H. apply (f_equal (@List.length ascii)) in H.
      rewrite repeat_length in H. discriminate H.
    - apply forallb_forall. intros c Hc. apply repeat_spec in Hc. now subst. }
  assert (Hdss : Forall digit_string [["1"%char]])
    by (constructor; [split; [discriminate | reflexivity] | constructor]).
  change (repeat "1"%char 4301 ++ ["."%char; "1"%char])
    with (repeat "1"%char 4301 ++ dotted [["1"%char]]).
  assert (Hne : [["1"%char]] <> []) by discriminate.
  rewrite (search_finds_whole_version (repeat "1"%char 4301) [["1"%char]] Hd Hne Hdss).
  rewrite (split_dotted [["1"%char]] (repeat "1"%char 4301) (proj2 Hd) Hdss).
  rewrite (ints_digit_strings (repeat "1"%char 4301 :: [["1"%char]]))
    by (now constructor).
  cbn [forallb]. rewrite repeat_length.
  replace (4301 <=? max_str_digits)%nat with false by (vm_compute; reflexivity).
  reflexivity.
Qed.
